(** * Marker-sequenced navigation: state machine and control law

    A shallow embedding of [src/src/navigation_controller.py] (class
    [NavigationController]) together with the constants of [src/config.py]
    and the [MarkerInfo] record of [src/src/camera_handler.py].

    Conventions of the embedding.
    - Python [int] is [Z] (unbounded).
    - Python/numpy floating scalars (heights, pixel coordinates, distances,
      wall-clock seconds) are exact rationals [Q]: rounding is not modelled.
      The one place where the float format itself decides the outcome, a
      division by zero, is modelled explicitly (type [npfloat] below).
    - [time.time()] is read inside the methods.  The value it returns in a
      given call is an explicit argument [current_time] of the embedded
      function: the caller of the Python method does not choose it, the
      environment does.
    - [simple_pid.PID] is an external library; its objects are abstract
      (section [Controller]). *)

From Stdlib Require Import ZArith QArith Qabs List Bool Lia Lqa.
From Stdlib Require Floats Uint63.
Import ListNotations.

Local Open Scope Q_scope.

(** ** Configuration ([src/config.py]) *)

Definition THRESHOLD : Q := 25.                 (* ARUCO_CONFIG["THRESHOLD"] *)
Definition TARGET_X : Q := 160.                 (* ARUCO_CONFIG["TARGET_X"] *)
Definition TARGET_Y : Q := 192.                 (* ARUCO_CONFIG["TARGET_Y"] *)
Definition MAX_ID_TIME_RESET : Q := 5.          (* NAVIGATION_CONFIG[...] *)
Definition TARGET_LOST_TIMEOUT_SEC : Q := 3.
Definition HEIGHT_TOLERANCE_CM : Q := 4.

(** ** Data model *)

(** [camera_handler.MarkerInfo]; the [corners] array is not read by the
    navigation controller and is left out. *)
Record MarkerInfo : Set := mkMarker {
  id : Z;
  center_x : Q;
  center_y : Q;
  distance : Q
}.

Inductive NavigationPhase : Set :=
| TAKEOFF
| ALIGNING
| APPROACHING
| LANDING.

Record NavigationState : Set := mkState {
  phase : NavigationPhase;
  target_id : Z;
  reached_id : Z;
  max_id : Z;
  last_target_time : Q;
  last_max_id_time : Q
}.

(** Attribute assignments [self.state.f = v]. *)
Definition set_phase (p : NavigationPhase) (s : NavigationState) :=
  mkState p (target_id s) (reached_id s) (max_id s)
          (last_target_time s) (last_max_id_time s).
Definition set_target_id (v : Z) (s : NavigationState) :=
  mkState (phase s) v (reached_id s) (max_id s)
          (last_target_time s) (last_max_id_time s).
Definition set_reached_id (v : Z) (s : NavigationState) :=
  mkState (phase s) (target_id s) v (max_id s)
          (last_target_time s) (last_max_id_time s).
Definition set_max_id (v : Z) (s : NavigationState) :=
  mkState (phase s) (target_id s) (reached_id s) v
          (last_target_time s) (last_max_id_time s).
Definition set_last_target_time (t : Q) (s : NavigationState) :=
  mkState (phase s) (target_id s) (reached_id s) (max_id s)
          t (last_max_id_time s).
Definition set_last_max_id_time (t : Q) (s : NavigationState) :=
  mkState (phase s) (target_id s) (reached_id s) (max_id s)
          (last_target_time s) t.

(** The state built by [__init__]; the two timestamps are two separate
    readings of the clock. *)
Definition initial_state (t_target t_max : Q) : NavigationState :=
  mkState TAKEOFF 1 0 0 t_target t_max.

(** ** Comparisons on floats *)

Definition Qlt_bool (x y : Q) : bool :=
  match x ?= y with Lt => true | _ => false end.

(** ** [update_state] *)

(** [max(marker.id for marker in markers)] on a non-empty list, given as
    head and tail. *)
Definition max_marker_id (m : MarkerInfo) (ms : list MarkerInfo) : Z :=
  fold_left Z.max (map id ms) (id m).

(** [next((m for m in markers if m.id == target), None)]. *)
Definition find_target (target : Z) (markers : list MarkerInfo)
  : option MarkerInfo :=
  find (fun m => (id m =? target)%Z) markers.

(** Lines 80-85: the max_id bookkeeping. *)
Definition update_max_id (current_time : Q) (markers : list MarkerInfo)
           (s : NavigationState) : NavigationState :=
  match markers with
  | [] => s
  | m :: ms =>
      let mx := max_marker_id m ms in
      if (max_id s <? mx)%Z
      then set_last_max_id_time current_time (set_max_id mx s)
      else s
  end.

(** Lines 92-111: the phase machine. *)
Definition handle_phase (target_marker : option MarkerInfo)
           (current_height target_height : Q)
           (s : NavigationState) : NavigationState :=
  match phase s with
  | TAKEOFF =>
      if Qle_bool (Qabs (current_height - target_height)) HEIGHT_TOLERANCE_CM
      then set_phase ALIGNING s
      else s
  | ALIGNING =>
      match target_marker with
      | Some m =>
          if Qle_bool (distance m) THRESHOLD
          then set_phase APPROACHING s
          else s
      | None => s
      end
  | APPROACHING =>
      match target_marker with
      | Some m =>
          if Qle_bool (distance m) THRESHOLD
          then if (target_id s =? 0)%Z
               then set_phase LANDING s
               else let s' := set_reached_id (reached_id s + 1)%Z s in
                    set_target_id (target_id s' + 1)%Z s'
          else s
      | None => s
      end
  | LANDING => s
  end.

(** [update_state]: the new state and the returned flag.  On well-typed
    arguments no statement of the body raises, so the flag is [True]. *)
Definition update_state (current_time : Q) (markers : list MarkerInfo)
           (current_height target_height : Q)
           (s : NavigationState) : NavigationState * bool :=
  let s1 := update_max_id current_time markers s in
  let target_marker := find_target (target_id s1) markers in
  let s2 := match target_marker with
            | Some _ => set_last_target_time current_time s1
            | None => s1
            end in
  (handle_phase target_marker current_height target_height s2, true).

(** [is_target_lost] and [should_update_max_id]; [now] is the value of
    [time.time()] read inside the call. *)
Definition is_target_lost (now : Q) (s : NavigationState) : bool :=
  Qlt_bool TARGET_LOST_TIMEOUT_SEC (now - last_target_time s).

Definition should_update_max_id (now : Q) (s : NavigationState) : bool :=
  Qlt_bool MAX_ID_TIME_RESET (now - last_max_id_time s).

(** ** Runs of the engine *)

(** One call of [update_state]: the clock reading taken inside the call and
    the three explicit arguments. *)
Record Tick : Set := mkTick {
  tick_time : Q;
  tick_markers : list MarkerInfo;
  tick_height : Q;
  tick_target_height : Q
}.

Definition step (s : NavigationState) (k : Tick) : NavigationState :=
  fst (update_state (tick_time k) (tick_markers k)
                    (tick_height k) (tick_target_height k) s).

Definition run (ticks : list Tick) (s : NavigationState) : NavigationState :=
  fold_left step ticks s.

(** The explicit arguments of a call, without the clock reading. *)
Definition tick_args (k : Tick) : list MarkerInfo * Q * Q :=
  (tick_markers k, tick_height k, tick_target_height k).

(** The part of the state that is not a timestamp. *)
Definition progress (s : NavigationState) : NavigationPhase * Z * Z * Z :=
  (phase s, target_id s, reached_id s, max_id s).

(** A call advanced to the next marker when the target identity moved. *)
Definition advanced (s s' : NavigationState) : bool :=
  negb (target_id s' =? target_id s)%Z.

(** Number of marker-advance transitions along a run. *)
Fixpoint count_advances (ticks : list Tick) (s : NavigationState) : Z :=
  match ticks with
  | [] => 0%Z
  | k :: rest =>
      ((if advanced s (step s k) then 1 else 0)
       + count_advances rest (step s k))%Z
  end.

(** [mx] is the largest identity among [ids]. *)
Definition is_max (mx : Z) (ids : list Z) : Prop :=
  In mx ids /\ forall x, In x ids -> (x <= mx)%Z.

(** The invariant behind the sequencing of targets. *)
Definition sequenced (s : NavigationState) : Prop :=
  (target_id s = reached_id s + 1)%Z /\ (0 <= reached_id s)%Z /\
  phase s <> LANDING.

(** ** Floating scalars at the division by zero *)

(** Values a numpy floating scalar can take, rounding aside. *)
Inductive npfloat : Set :=
| Finite (q : Q)
| PosInf
| NegInf
| NaN.

Definition np_neg (x : npfloat) : npfloat :=
  match x with
  | Finite q => Finite (- q)
  | PosInf => NegInf
  | NegInf => PosInf
  | NaN => NaN
  end.

(** A float division either raises ([None]) or returns a scalar. *)
Definition division := Q -> Q -> option npfloat.

(** [a / b] on numpy scalars.  [detect_markers] stores [np.mean(...)] in
    [center_x] and [center_y], so [dx] and [dy] are numpy scalars: dividing
    by zero gives an infinity or nan (with a warning) and raises nothing.
    When [dy] is zero it is the positive zero ([TARGET_Y - center_y] with
    equal operands), so the sign of the infinity is the sign of [a]. *)
Definition np_true_divide : division := fun a b =>
  if Qeq_bool b 0
  then Some (match a ?= 0 with
             | Gt => PosInf
             | Lt => NegInf
             | Eq => NaN
             end)
  else Some (Finite (a / b)).

(** [a / b] on builtin Python floats: [ZeroDivisionError] on a zero
    divisor.  Not what the controller receives; kept for comparison. *)
Definition float_true_divide : division := fun a b =>
  if Qeq_bool b 0 then None else Some (Finite (a / b)).

(** [int(x)]: truncation toward zero; raises on infinities and nan. *)
Definition int_of_float (x : npfloat) : option Z :=
  match x with
  | Finite q => Some (Z.quot (Qnum q) (Zpos (Qden q)))
  | _ => None
  end.

(** ** Command dictionary *)

(** [self.control_values]: a dict with four fixed keys. *)
Record ControlValues : Set := mkControl {
  left_right : Z;
  forward_backward : Z;
  up_down : Z;
  yaw : Z
}.

Definition zero_values : ControlValues := mkControl 0 0 0 0.

Definition set_left_right (v : Z) (cv : ControlValues) :=
  mkControl v (forward_backward cv) (up_down cv) (yaw cv).
Definition set_forward_backward (v : Z) (cv : ControlValues) :=
  mkControl (left_right cv) v (up_down cv) (yaw cv).
Definition set_up_down (v : Z) (cv : ControlValues) :=
  mkControl (left_right cv) (forward_backward cv) v (yaw cv).
Definition set_yaw (v : Z) (cv : ControlValues) :=
  mkControl (left_right cv) (forward_backward cv) (up_down cv) v.

(** [max(min(v, 100), -100)]. *)
Definition clamp (v : Z) : Z := Z.max (Z.min v 100) (-100).

Definition clamp_values (cv : ControlValues) : ControlValues :=
  mkControl (clamp (left_right cv)) (clamp (forward_backward cv))
            (clamp (up_down cv)) (clamp (yaw cv)).

Definition in_range (v : Z) : Prop := (-100 <= v <= 100)%Z.

(** Lines 126-130: open-loop height control. *)
Definition height_control (current_height target_height : Q)
           (cv : ControlValues) : ControlValues :=
  if Qlt_bool (target_height + HEIGHT_TOLERANCE_CM) current_height
  then set_up_down (-20) cv
  else if Qlt_bool current_height (target_height - HEIGHT_TOLERANCE_CM)
       then set_up_down 20 cv
       else cv.

(** Lines 135-136: normalised position errors. *)
Definition error_x (m : MarkerInfo) : Q := (center_x m - TARGET_X) / TARGET_X.
Definition error_y (m : MarkerInfo) : Q := (TARGET_Y - center_y m) / TARGET_Y.

Section Controller.

(** [np.arctan(x) * 180 / np.pi] at a finite [x]. *)
Variable arctan_deg : Q -> Q.

Definition np_arctan_deg (x : npfloat) : npfloat :=
  match x with
  | Finite q => Finite (arctan_deg q)
  | PosInf => Finite 90
  | NegInf => Finite (-90)
  | NaN => NaN
  end.

(** Lines 139-145, for a given behaviour of [/].  The bare [except]
    turns a raised division into 0. *)
Definition rotation_error_with (divide : division) (dx dy : Q) : npfloat :=
  if negb (Qeq_bool dx 0)
  then match divide dx dy with
       | Some r => np_arctan_deg r
       | None => Finite 0
       end
  else Finite 0.

(** The rotation error of the program: numpy scalars. *)
Definition rotation_error : Q -> Q -> npfloat :=
  rotation_error_with np_true_divide.

(** A [simple_pid.PID] object: its state (gains, integral, previous
    error, clock samples, last output) and its call, which returns the
    new state and the output, or raises ([None]). *)
Variable PID : Type.
Variable pid_call : PID -> npfloat -> PID * option npfloat.

Record NavigationController : Type := mkController {
  pid_x : PID;
  pid_y : PID;
  pid_r : PID;
  state : NavigationState;
  control_values : ControlValues
}.

Definition set_pid_x (p : PID) (c : NavigationController) :=
  mkController p (pid_y c) (pid_r c) (state c) (control_values c).
Definition set_pid_y (p : PID) (c : NavigationController) :=
  mkController (pid_x c) p (pid_r c) (state c) (control_values c).
Definition set_pid_r (p : PID) (c : NavigationController) :=
  mkController (pid_x c) (pid_y c) p (state c) (control_values c).
Definition set_control_values (cv : ControlValues)
           (c : NavigationController) :=
  mkController (pid_x c) (pid_y c) (pid_r c) (state c) cv.

(** [int(pid(v))]: the new PID state and the integer, or [None] when the
    call or the conversion raises. *)
Definition int_pid (p : PID) (v : npfloat) : PID * option Z :=
  let (p', out) := pid_call p v in
  (p', match out with
       | Some x => int_of_float x
       | None => None
       end).

(** Lines 133-154 for a present marker: the controller after the PID
    calls, and the dictionary, or [None] when an exception escaped to the
    handler of [calculate_control]. *)
Definition marker_control (m : MarkerInfo) (c : NavigationController)
  : NavigationController * option ControlValues :=
  let dx := error_x m in
  let dy := error_y m in
  let rot := rotation_error dx dy in
  match phase (state c) with
  | ALIGNING =>
      let (p, r) := int_pid (pid_r c) (np_neg rot) in
      let c := set_pid_r p c in
      match r with
      | Some v => (c, Some (set_yaw v (control_values c)))
      | None => (c, None)
      end
  | _ =>
      let (p, r) := int_pid (pid_x c) (Finite (- dx * 100)) in
      let c := set_pid_x p c in
      match r with
      | Some v =>
          let c := set_control_values (set_left_right v (control_values c)) c in
          let (p, r) := int_pid (pid_y c) (Finite (- dy * 100)) in
          let c := set_pid_y p c in
          match r with
          | Some w => (c, Some (set_forward_backward w (control_values c)))
          | None => (c, None)
          end
      | None => (c, None)
      end
  end.

(** [calculate_control]: the controller after the call and the returned
    dictionary.  An exception inside the body reaches the handler, which
    returns a fresh all-zero dictionary. *)
Definition calculate_control (target_marker : option MarkerInfo)
           (current_height target_height : Q) (c : NavigationController)
  : NavigationController * ControlValues :=
  let c := set_control_values
             (height_control current_height target_height zero_values) c in
  match target_marker with
  | Some m =>
      match marker_control m c with
      | (c, Some cv) =>
          let cv := clamp_values cv in
          (set_control_values cv c, cv)
      | (c, None) => (c, zero_values)
      end
  | None =>
      let cv := clamp_values (control_values c) in
      (set_control_values cv c, cv)
  end.

End Controller.

(** ** Phase ordinals *)

(** The values of the [NavigationPhase] enumeration (lines 18-23), which
    the main loop logs as [phase.value]. *)
Definition phase_value (p : NavigationPhase) : Z :=
  match p with
  | TAKEOFF => 0
  | ALIGNING => 1
  | APPROACHING => 2
  | LANDING => 3
  end.

(** ** Sightings of a target *)

(** The frame of a call holds a marker with the given identity. *)
Definition frame_has (target : Z) (k : Tick) : bool :=
  existsb (fun m => (id m =? target)%Z) (tick_markers k).

(** In the words of the specification: the time of the last sighting of
    marker [target] along a run, that is the clock reading of the latest
    call whose frame held it; [None] when no frame did. *)
Fixpoint last_seen (target : Z) (ticks : list Tick) : option Q :=
  match ticks with
  | [] => None
  | k :: rest =>
      match last_seen target rest with
      | Some t => Some t
      | None => if frame_has target k then Some (tick_time k) else None
      end
  end.

(** The clock reading of the latest call whose frame held the identity
    that was the target when that call began; [t] when there is none. *)
Fixpoint sighting_time (ticks : list Tick) (s : NavigationState) (t : Q)
  : Q :=
  match ticks with
  | [] => t
  | k :: rest =>
      sighting_time rest (step s k)
                    (if frame_has (target_id s) k then tick_time k else t)
  end.

(** ** The control loop ([src/src/main.py]) *)

Section MainLoop.

Variable arctan_deg : Q -> Q.
Variable PID : Type.
Variable pid_call : PID -> npfloat -> PID * option npfloat.

(** [update_state] acts on [self.state] of the controller. *)
Definition set_state (s : NavigationState) (c : NavigationController PID) :=
  mkController PID (pid_x PID c) (pid_y PID c) (pid_r PID c) s
               (control_values PID c).

(** Lines 144-153 of [main_loop]: the state update (its flag is dropped),
    the lookup of the target in the same frame with the target identity
    after the update, and the control computation. *)
Definition navigate (now : Q) (markers : list MarkerInfo)
           (current_height target_height : Q) (c : NavigationController PID)
  : NavigationController PID * ControlValues :=
  let c := set_state (fst (update_state now markers current_height
                                        target_height (state PID c))) c in
  let target_marker := find_target (target_id (state PID c)) markers in
  calculate_control arctan_deg PID pid_call target_marker
                    current_height target_height c.

(** Line 142 with [navigate]: the height is the reading of the drone in a
    real flight and the target height itself otherwise. *)
Definition loop_body (real_flight : bool) (now : Q)
           (markers : list MarkerInfo) (height_reading target_height : Z)
           (c : NavigationController PID)
  : NavigationController PID * ControlValues :=
  let current_height := if real_flight then height_reading
                        else target_height in
  navigate now markers (inject_Z current_height) (inject_Z target_height) c.

End MainLoop.

(** ** The drone wrapper ([src/src/drone_controller.py]) *)

(** The calls into [djitellopy] and [os.system] are outside the
    repository: what they return, or whether they raise, is an argument of
    the embedded method. *)
Module Drone.

Import Stdlib.Floats.Floats.

(** [DRONE_CONFIG["SPEED_SCALE"]]: the binary64 number written [0.4]. *)
Definition SPEED_SCALE : float := 0x1.999999999999ap-2%float.

(** [WIFI_CONFIG["MAX_CONNECT_ATTEMPTS"]]. *)
Definition MAX_CONNECT_ATTEMPTS : nat := 10.

Record DroneController : Set := mkDrone {
  has_drone : bool;            (* [self.drone is not None] *)
  is_flying : bool;
  is_connected : bool;
  current_height : Z
}.

Definition set_has_drone (b : bool) (d : DroneController) :=
  mkDrone b (is_flying d) (is_connected d) (current_height d).
Definition set_is_flying (b : bool) (d : DroneController) :=
  mkDrone (has_drone d) b (is_connected d) (current_height d).
Definition set_is_connected (b : bool) (d : DroneController) :=
  mkDrone (has_drone d) (is_flying d) b (current_height d).
Definition set_current_height (h : Z) (d : DroneController) :=
  mkDrone (has_drone d) (is_flying d) (is_connected d) h.

(** [__init__]. *)
Definition init : DroneController := mkDrone false false false 0.

(** The guard [not self.is_connected or self.drone is None]. *)
Definition not_ready (d : DroneController) : bool :=
  negb (is_connected d) || negb (has_drone d).

(** Lines 31-43: the WiFi loop.  [check k] is the result of
    [_check_wifi_connection] in the iteration entered with
    [error_count = k]; the result is [error_count] after the loop. *)
Fixpoint wifi_loop (check : nat -> bool) (fuel error_count : nat) : nat :=
  match fuel with
  | O => error_count
  | S fuel' =>
      if (error_count <? MAX_CONNECT_ATTEMPTS)%nat
      then if check error_count
           then error_count
           else wifi_loop check fuel' (S error_count)
      else error_count
  end.

(** How far lines 50-58 get before an exception, if any. *)
Inductive TelloLink : Set :=
| ConstructorRaises            (* [Tello()] *)
| ConnectRaises                (* [self.drone.connect()] *)
| BatteryRaises                (* [self.drone.get_battery()] *)
| Linked.

Definition connect (check : nat -> bool) (link : TelloLink)
           (d : DroneController) : DroneController * bool :=
  let error_count := wifi_loop check MAX_CONNECT_ATTEMPTS 0 in
  if (MAX_CONNECT_ATTEMPTS <=? error_count)%nat
  then (d, false)
  else match link with
       | ConstructorRaises => (d, false)
       | ConnectRaises => (set_has_drone true d, false)
       | BatteryRaises =>
           (set_is_connected true (set_has_drone true d), false)
       | Linked => (set_is_connected true (set_has_drone true d), true)
       end.

(** [takeoff] and [land]; [ok] tells that the library call returned. *)
Definition takeoff (ok : bool) (d : DroneController)
  : DroneController * bool :=
  if not_ready d then (d, false)
  else if ok then (set_is_flying true d, true) else (d, false).

Definition land (ok : bool) (d : DroneController)
  : DroneController * bool :=
  if not_ready d then (d, false)
  else if ok then (set_is_flying false d, true) else (d, false).

(** The float of a Python [int] in [v * scale]; the conversion is exact
    below [2^53] in magnitude, the range this model covers. *)
Definition float_of_int (v : Z) : float :=
  if (v <? 0)%Z
  then PrimFloat.opp (PrimFloat.of_uint63 (Uint63.of_Z (- v)))
  else PrimFloat.of_uint63 (Uint63.of_Z v).

(** [int(x)] on a binary64 float: truncation toward zero; raises on
    infinities and nan. *)
Definition int_of_binary64 (x : float) : option Z :=
  match Prim2SF x with
  | S754_zero _ => Some 0%Z
  | S754_finite s m e =>
      let mag := (if 0 <=? e then Z.pos m * 2 ^ e
                  else Z.pos m / 2 ^ (- e))%Z in
      Some (if s then (- mag)%Z else mag)
  | _ => None
  end.

(** [int(v * scale)], lines 107-111. *)
Definition scale (v : Z) : option Z :=
  int_of_binary64 (PrimFloat.mul (float_of_int v) SPEED_SCALE).

(** [send_rc_control]: the four values handed to the library, when it is
    called, and the returned flag. *)
Definition send_rc_control (ok : bool) (left_right forward_backward
                                          up_down yaw : Z)
           (d : DroneController) : option (Z * Z * Z * Z) * bool :=
  if not_ready d then (None, false)
  else match scale left_right, scale forward_backward,
             scale up_down, scale yaw with
       | Some a, Some b, Some c, Some e => (Some (a, b, c, e), ok)
       | _, _, _, _ => (None, false)
       end.

(** [get_height]; [reading] is what the library returns, [None] when it
    raises. *)
Definition get_height (reading : option Z) (d : DroneController)
  : DroneController * Z :=
  if not_ready d then (d, 0%Z)
  else match reading with
       | Some h => (set_current_height h d, h)
       | None => (d, current_height d)
       end.

(** [emergency_stop]: the stop command, then a landing when flying. *)
Definition emergency_stop (rc_ok land_ok : bool) (d : DroneController)
  : DroneController :=
  if is_connected d && has_drone d
  then if rc_ok
       then if is_flying d then fst (land land_ok d) else d
       else d
  else d.

(** [cleanup]. *)
Definition cleanup (land_ok : bool) (d : DroneController)
  : DroneController :=
  let d := if is_connected d && has_drone d
           then if is_flying d then fst (land land_ok d) else d
           else d in
  set_is_flying false (set_is_connected false d).

(** The methods as operations, each with the outcome of its external
    calls. *)
Inductive Op : Type :=
| Connect (check : nat -> bool) (link : TelloLink)
| Takeoff (ok : bool)
| Land (ok : bool)
| SendRc (ok : bool) (left_right forward_backward up_down yaw : Z)
| GetHeight (reading : option Z)
| EmergencyStop (rc_ok land_ok : bool)
| Cleanup (land_ok : bool).

Definition exec (d : DroneController) (op : Op) : DroneController :=
  match op with
  | Connect check link => fst (connect check link d)
  | Takeoff ok => fst (takeoff ok d)
  | Land ok => fst (land ok d)
  | SendRc _ _ _ _ _ => d
  | GetHeight reading => fst (get_height reading d)
  | EmergencyStop rc_ok land_ok => emergency_stop rc_ok land_ok d
  | Cleanup land_ok => cleanup land_ok d
  end.

Definition run_ops (ops : list Op) (d : DroneController) : DroneController :=
  fold_left exec ops d.

(** The latest reading that did not raise. *)
Fixpoint latest_reading (readings : list (option Z)) (cached : Z) : Z :=
  match readings with
  | [] => cached
  | Some h :: rest => latest_reading rest h
  | None :: rest => latest_reading rest cached
  end.

End Drone.

(** * Properties of the tracker and the phase machine *)

(** *** A mission, step by step *)

(** Take-off band reached, target 1 acquired within the threshold, then
    reached: the target moves on to marker 2. *)
Example mission_first_marker :
  let ticks := [mkTick 1 [] 120 150;
                mkTick 2 [] 148 150;
                mkTick 3 [mkMarker 1 160 212 20] 150 150;
                mkTick 4 [mkMarker 2 40 30 201; mkMarker 1 160 197 5] 150 150] in
  map (fun n => progress (run (firstn n ticks) (initial_state 0 0)))
      [1; 2; 3; 4]%nat
  = [(TAKEOFF, 1, 0, 0); (ALIGNING, 1, 0, 0);
     (APPROACHING, 1, 0, 1); (APPROACHING, 2, 1, 2)]%Z.
Proof. reflexivity. Qed.

Example mission_timestamps :
  let s := run [mkTick 1 [] 120 150;
                mkTick 3 [mkMarker 1 160 212 20] 150 150;
                mkTick 4 [mkMarker 2 40 30 201] 150 150]
               (initial_state 0 0) in
  last_target_time s = 3 /\ last_max_id_time s = 4 /\
  is_target_lost 6 s = false /\ is_target_lost 8 s = true.
Proof. repeat split. Qed.

Lemma Qlt_bool_iff (x y : Q) : Qlt_bool x y = true <-> x < y.
Proof.
  unfold Qlt_bool. rewrite Qlt_alt.
  destruct (x ?= y); split; congruence.
Qed.

Lemma Qlt_bool_false_iff (x y : Q) : Qlt_bool x y = false <-> y <= x.
Proof.
  rewrite <- not_true_iff_false, Qlt_bool_iff.
  split; [apply Qnot_lt_le | apply Qle_not_lt].
Qed.

Lemma Qle_bool_false_iff (x y : Q) : Qle_bool x y = false <-> y < x.
Proof.
  rewrite <- not_true_iff_false, Qle_bool_iff.
  split; [apply Qnot_le_lt | apply Qlt_not_le].
Qed.

(** *** The lookup of the target marker *)

Lemma find_target_some (t : Z) (ms : list MarkerInfo) (m : MarkerInfo) :
  find_target t ms = Some m -> In m ms /\ id m = t.
Proof.
  unfold find_target. intros H. apply find_some in H.
  destruct H as [Hin Heq]. split; [exact Hin | now apply Z.eqb_eq].
Qed.

Lemma find_target_none (t : Z) (ms : list MarkerInfo) :
  find_target t ms = None <-> forall m, In m ms -> id m <> t.
Proof.
  unfold find_target. split.
  - intros H m Hin. apply (find_none _ _ H) in Hin. now apply Z.eqb_neq.
  - induction ms as [|a ms IH]; simpl; intros H; [reflexivity|].
    destruct (Z.eqb_spec (id a) t) as [E|_].
    + exfalso. apply (H a); auto.
    + apply IH. intros m Hm. apply H. now right.
Qed.

(** The lookup returns the first marker of the list with the identity. *)
Lemma find_target_first (t : Z) (ms : list MarkerInfo) (m : MarkerInfo) :
  find_target t ms = Some m <->
  exists pre post,
    ms = pre ++ m :: post /\ id m = t /\ forall x, In x pre -> id x <> t.
Proof.
  unfold find_target. split.
  - induction ms as [|a ms IH]; simpl; [discriminate|].
    destruct (Z.eqb_spec (id a) t) as [E|N].
    + intros [= ->]. exists [], ms. simpl. intuition.
    + intros H. destruct (IH H) as (pre & post & -> & E & Hpre).
      exists (a :: pre), post. simpl. repeat split; auto.
      intros x [<-|Hx]; auto.
  - intros (pre & post & -> & E & Hpre).
    induction pre as [|a pre IH]; simpl.
    + subst t. now rewrite Z.eqb_refl.
    + destruct (Z.eqb_spec (id a) t) as [Ea|_].
      * exfalso. apply (Hpre a); simpl; auto.
      * apply IH. intros x Hx. apply Hpre. now right.
Qed.

(** *** The maximum identity of a frame *)

Lemma fold_max_ge_init (l : list Z) (a : Z) : (a <= fold_left Z.max l a)%Z.
Proof.
  revert a. induction l as [|x l IH]; simpl; intros a; [lia|].
  specialize (IH (Z.max a x)). lia.
Qed.

Lemma fold_max_upper (l : list Z) (a x : Z) :
  In x l -> (x <= fold_left Z.max l a)%Z.
Proof.
  revert a. induction l as [|y l IH]; simpl; intros a; [tauto|].
  intros [->|Hx].
  - pose proof (fold_max_ge_init l (Z.max a x)). lia.
  - now apply IH.
Qed.

Lemma fold_max_in (l : list Z) (a : Z) :
  fold_left Z.max l a = a \/ In (fold_left Z.max l a) l.
Proof.
  revert a. induction l as [|y l IH]; simpl; intros a; [now left|].
  destruct (IH (Z.max a y)) as [E|Hin]; [|now right; right].
  rewrite E. destruct (Z.max_spec a y) as [[_ ->]|[_ ->]]; auto.
Qed.

Lemma max_marker_id_is_max (m : MarkerInfo) (ms : list MarkerInfo) :
  is_max (max_marker_id m ms) (map id (m :: ms)).
Proof.
  unfold is_max, max_marker_id. simpl. split.
  - destruct (fold_max_in (map id ms) (id m)) as [->|H]; auto.
  - intros x [<-|Hx]; [apply fold_max_ge_init | now apply fold_max_upper].
Qed.

Lemma is_max_unique (a b : Z) (ids : list Z) :
  is_max a ids -> is_max b ids -> a = b.
Proof.
  intros [Ha Ua] [Hb Ub]. apply Z.le_antisymm; auto.
Qed.

(** *** One call, field by field *)

Ltac open_step :=
  unfold step, update_state, update_max_id, handle_phase,
    set_phase, set_target_id, set_reached_id, set_max_id,
    set_last_target_time, set_last_max_id_time in *;
  simpl in *.

(* Case analysis on the innermost scrutinee first. *)
Ltac split_step :=
  repeat match goal with
         | |- context [match ?x with _ => _ end] =>
             lazymatch x with
             | context [match _ with _ => _ end] => fail
             | _ => destruct x eqn:?; simpl in *
             end
         end.

Ltac bool_facts :=
  repeat match goal with
         | H : (_ =? _)%Z = true |- _ => apply Z.eqb_eq in H
         | H : (_ =? _)%Z = false |- _ => apply Z.eqb_neq in H
         | H : (_ <? _)%Z = true |- _ => apply Z.ltb_lt in H
         | H : (_ <? _)%Z = false |- _ => apply Z.ltb_ge in H
         | H : Qle_bool _ _ = true |- _ => apply Qle_bool_iff in H
         | H : Qle_bool _ _ = false |- _ => apply Qle_bool_false_iff in H
         | H : Qlt_bool _ _ = true |- _ => apply Qlt_bool_iff in H
         | H : Qlt_bool _ _ = false |- _ => apply Qlt_bool_false_iff in H
         end.

Lemma update_max_id_target (t : Q) (ms : list MarkerInfo) (s : NavigationState) :
  target_id (update_max_id t ms s) = target_id s /\
  reached_id (update_max_id t ms s) = reached_id s /\
  phase (update_max_id t ms s) = phase s /\
  last_target_time (update_max_id t ms s) = last_target_time s.
Proof.
  open_step. split_step; auto.
Qed.

Lemma run_app (pre post : list Tick) (s : NavigationState) :
  run (pre ++ post) s = run post (run pre s).
Proof. apply fold_left_app. Qed.

Lemma run_cons (k : Tick) (ticks : list Tick) (s : NavigationState) :
  run (k :: ticks) s = run ticks (step s k).
Proof. reflexivity. Qed.

(** Induction principle for runs: a property kept by every call holds along
    every run. *)
Lemma run_preserves (P : NavigationState -> Prop) :
  (forall s k, P s -> P (step s k)) ->
  forall ticks s, P s -> P (run ticks s).
Proof.
  intros Hstep ticks. induction ticks as [|k ticks IH]; intros s Hs.
  - exact Hs.
  - rewrite run_cons. apply IH, Hstep, Hs.
Qed.

Lemma step_sequenced (s : NavigationState) (k : Tick) :
  sequenced s -> sequenced (step s k).
Proof.
  unfold sequenced. destruct s as [p t r mx lt lm], k as [now ms h th].
  open_step. intros (Ht & Hr & Hp).
  split_step; bool_facts; repeat split; try lia; congruence.
Qed.

(** C2. In every state reached from the initial state by any sequence of
    [update_state] calls, [target_id = reached_id + 1], hence
    [target_id >= 1]; the landing guard [target_id == 0] is false there and
    the phase is never [LANDING]. *)
Theorem target_follows_reached :
  forall (ticks : list Tick) (t_target t_max : Q),
    let s := run ticks (initial_state t_target t_max) in
    (target_id s = reached_id s + 1)%Z /\
    (1 <= target_id s)%Z /\
    (target_id s =? 0)%Z = false /\
    phase s <> LANDING.
Proof.
  intros ticks t_target t_max s.
  assert (H : sequenced s).
  { apply run_preserves; [exact step_sequenced|].
    unfold sequenced, initial_state; simpl.
    repeat split; try lia; discriminate. }
  destruct H as (Ht & Hr & Hp).
  split; [exact Ht|]. split; [lia|]. split; [|exact Hp].
  apply Z.eqb_neq. lia.
Qed.

(** *** Monotone counters *)

Lemma step_counters (s : NavigationState) (k : Tick) :
  (target_id s <= target_id (step s k))%Z /\
  (max_id s <= max_id (step s k))%Z /\
  reached_id (step s k)
  = (reached_id s + if advanced s (step s k) then 1 else 0)%Z.
Proof.
  unfold advanced. destruct s as [p t r mx lt lm], k as [now ms h th].
  open_step. split_step; bool_facts; repeat split; lia.
Qed.

Lemma run_counters (ticks : list Tick) (s : NavigationState) :
  (target_id s <= target_id (run ticks s))%Z /\
  (max_id s <= max_id (run ticks s))%Z /\
  reached_id (run ticks s) = (reached_id s + count_advances ticks s)%Z.
Proof.
  revert s. induction ticks as [|k ticks IH]; intros s.
  - simpl. repeat split; lia.
  - rewrite run_cons. simpl count_advances.
    destruct (IH (step s k)) as (Ht & Hm & Hr).
    destruct (step_counters s k) as (Ht' & Hm' & Hr').
    repeat split; lia.
Qed.

Lemma update_state_max_id (now : Q) (ms : list MarkerInfo) (h th : Q)
      (s : NavigationState) (mx : Z) :
  is_max mx (map id ms) -> (max_id s < mx)%Z ->
  max_id (fst (update_state now ms h th s)) = mx /\
  last_max_id_time (fst (update_state now ms h th s)) = now.
Proof.
  intros Hmax Hlt. destruct ms as [|m ms].
  - destruct Hmax as [[] _].
  - pose proof (is_max_unique _ _ _ Hmax (max_marker_id_is_max m ms)) as E.
    destruct s as [p t r mx0 lt lm]. open_step.
    rewrite <- E. apply Z.ltb_lt in Hlt. rewrite Hlt. simpl.
    split_step; auto.
Qed.

(** C5. Along every sequence of [update_state] calls from the initial
    state, [target_id] and [max_id] never decrease, [reached_id] is the
    number of marker-advance transitions so far, and a call whose frame has
    a largest identity [mx] above the current [max_id] sets [max_id] to [mx]
    and the max-id timestamp to the time of the call. *)
Theorem tracker_counters :
  forall (t_target t_max : Q) (pre post : list Tick)
         (now : Q) (markers : list MarkerInfo) (h th : Q),
    let s0 := initial_state t_target t_max in
    let s := run pre s0 in
    let s' := fst (update_state now markers h th s) in
    (target_id s <= target_id (run post s))%Z /\
    (max_id s <= max_id (run post s))%Z /\
    reached_id s = count_advances pre s0 /\
    (forall mx, is_max mx (map id markers) -> (max_id s < mx)%Z ->
                max_id s' = mx /\ last_max_id_time s' = now).
Proof.
  intros t_target t_max pre post now markers h th s0 s s'.
  destruct (run_counters post s) as (Ht & Hm & _).
  destruct (run_counters pre s0) as (_ & _ & Hr).
  split; [exact Ht|]. split; [exact Hm|]. split.
  - subst s. rewrite Hr. reflexivity.
  - intros mx Hmax Hlt. now apply update_state_max_id.
Qed.

(** *** The phase machine, one call *)

(** [update_max_id] leaves the target alone, so the lookup of the call is
    the lookup in the state before the call. *)
Lemma update_state_unfold (now : Q) (ms : list MarkerInfo) (h th : Q)
      (s : NavigationState) :
  fst (update_state now ms h th s)
  = handle_phase (find_target (target_id s) ms) h th
      (match find_target (target_id s) ms with
       | Some _ => set_last_target_time now (update_max_id now ms s)
       | None => update_max_id now ms s
       end).
Proof.
  unfold update_state. simpl.
  destruct (update_max_id_target now ms s) as (-> & _). reflexivity.
Qed.

Lemma step_landing (s : NavigationState) (k : Tick) :
  phase s = LANDING -> phase (step s k) = LANDING.
Proof.
  destruct s as [p t r mx lt lm], k as [now ms h th].
  open_step. intros ->. split_step; reflexivity.
Qed.

Lemma landing_terminal (ticks : list Tick) (s : NavigationState) :
  phase s = LANDING -> phase (run ticks s) = LANDING.
Proof.
  apply (run_preserves (fun s => phase s = LANDING)). exact step_landing.
Qed.

Lemma step_not_takeoff (s : NavigationState) (k : Tick) :
  phase s <> TAKEOFF -> phase (step s k) <> TAKEOFF.
Proof.
  destruct s as [p t r mx lt lm], k as [now ms h th].
  open_step. intros Hp. split_step; congruence.
Qed.

(** C6. In phase APPROACHING, when the target marker found in the frame is
    within the threshold: with [target_id <> 0] both [reached_id] and
    [target_id] grow by one and the phase stays APPROACHING; with
    [target_id = 0] the phase becomes LANDING, the two counters are
    unchanged, and no later sequence of calls changes the phase. *)
Theorem approaching_reaches_threshold :
  forall (now : Q) (markers : list MarkerInfo) (h th : Q)
         (s : NavigationState) (m : MarkerInfo),
    phase s = APPROACHING ->
    find_target (target_id s) markers = Some m ->
    distance m <= THRESHOLD ->
    let s' := fst (update_state now markers h th s) in
    (target_id s <> 0%Z ->
     reached_id s' = (reached_id s + 1)%Z /\
     target_id s' = (target_id s + 1)%Z /\
     phase s' = APPROACHING) /\
    (target_id s = 0%Z ->
     phase s' = LANDING /\
     reached_id s' = reached_id s /\
     target_id s' = target_id s /\
     forall ticks, phase (run ticks s') = LANDING).
Proof.
  intros now markers h th s m Hp Hfind Hd s'.
  assert (E : s' = handle_phase (Some m) h th
                     (set_last_target_time now (update_max_id now markers s))).
  { subst s'. rewrite update_state_unfold, Hfind. reflexivity. }
  apply Qle_bool_iff in Hd.
  destruct (update_max_id_target now markers s) as (Ht & Hr & Hph & _).
  assert (E' : s' = if (target_id s =? 0)%Z
                    then set_phase LANDING
                           (set_last_target_time now (update_max_id now markers s))
                    else set_target_id (target_id s + 1)
                           (set_reached_id (reached_id s + 1)
                              (set_last_target_time now
                                 (update_max_id now markers s)))).
  { rewrite E. unfold handle_phase. simpl. rewrite Hph, Hp, Hd, Ht, Hr.
    reflexivity. }
  clearbody s'. clear E. split; intros H0.
  - apply Z.eqb_neq in H0. rewrite H0 in E'. subst s'. simpl.
    rewrite Hph. auto.
  - assert (Hl : phase s' = LANDING).
    { apply Z.eqb_eq in H0. rewrite H0 in E'. subst s'. reflexivity. }
    apply Z.eqb_eq in H0. rewrite H0 in E'. subst s'. simpl in *.
    repeat split; auto.
    intros ticks. now apply landing_terminal.
Qed.

Lemma approaching_reaches_threshold_witness :
  let s := mkState APPROACHING 0 0 1 0 0 in
  let s' := fst (update_state 7 [mkMarker 0 160 189 3] 150 150 s) in
  phase s' = LANDING /\ reached_id s' = 0%Z /\ target_id s' = 0%Z /\
  forall ticks, phase (run ticks s') = LANDING.
Proof.
  refine (proj2 (approaching_reaches_threshold
                   7 [mkMarker 0 160 189 3] 150 150
                   (mkState APPROACHING 0 0 1 0 0) (mkMarker 0 160 189 3)
                   eq_refl eq_refl _) eq_refl).
  apply Qle_bool_imp_le. reflexivity.
Defined.

(** C7. In phase TAKEOFF a call moves to ALIGNING exactly when
    [|current_height - target_height| <= HEIGHT_TOLERANCE_CM], and stays in
    TAKEOFF otherwise; a state that is not in TAKEOFF is never brought back
    to it by any sequence of calls. *)
Theorem takeoff_gate :
  (forall (now : Q) (markers : list MarkerInfo) (h th : Q)
          (s : NavigationState),
      phase s = TAKEOFF ->
      let s' := fst (update_state now markers h th s) in
      (phase s' = ALIGNING <-> Qabs (h - th) <= HEIGHT_TOLERANCE_CM) /\
      (phase s' = TAKEOFF <-> HEIGHT_TOLERANCE_CM < Qabs (h - th))) /\
  (forall (s : NavigationState) (ticks : list Tick),
      phase s <> TAKEOFF -> phase (run ticks s) <> TAKEOFF).
Proof.
  split.
  - intros now markers h th s Hp s'. subst s'.
    rewrite update_state_unfold.
    rewrite <- Qle_bool_iff, <- Qle_bool_false_iff.
    destruct (update_max_id_target now markers s) as (_ & _ & Hph & _).
    unfold handle_phase.
    set (b := Qle_bool (Qabs (h - th)) HEIGHT_TOLERANCE_CM).
    destruct (find_target (target_id s) markers); simpl;
      rewrite Hph, Hp; destruct b; simpl;
      rewrite ?Hph, ?Hp; split; split; congruence.
  - intros s ticks.
    apply (run_preserves (fun s => phase s <> TAKEOFF)).
    exact step_not_takeoff.
Qed.

Lemma takeoff_gate_witness :
  phase (fst (update_state 1 [] 147 150 (initial_state 0 0))) = ALIGNING /\
  phase (run [mkTick 2 [] 90 150; mkTick 3 [] 150 150]
             (mkState ALIGNING 1 0 0 0 0)) <> TAKEOFF.
Proof.
  split.
  - apply (proj1 (proj1 takeoff_gate 1 [] 147 150 (initial_state 0 0) eq_refl)).
    apply Qle_bool_imp_le. reflexivity.
  - apply (proj2 takeoff_gate). discriminate.
Defined.

(** *** ALIGNING *)

Lemma aligning_phase (now : Q) (ms : list MarkerInfo) (h th : Q)
      (s : NavigationState) :
  phase s = ALIGNING ->
  phase (fst (update_state now ms h th s))
  = match find_target (target_id s) ms with
    | Some m => if Qle_bool (distance m) THRESHOLD
                then APPROACHING else ALIGNING
    | None => ALIGNING
    end.
Proof.
  intros Hp. rewrite update_state_unfold.
  destruct (update_max_id_target now ms s) as (_ & _ & Hph & _).
  unfold handle_phase.
  destruct (find_target (target_id s) ms) as [m|]; simpl; rewrite Hph, Hp.
  - destruct (Qle_bool (distance m) THRESHOLD); simpl; congruence.
  - congruence.
Qed.

Lemma find_target_nodup (ms : list MarkerInfo) (m : MarkerInfo) :
  NoDup (map id ms) -> In m ms -> find_target (id m) ms = Some m.
Proof.
  unfold find_target. induction ms as [|a ms IH]; simpl; [tauto|].
  intros Hnd [->|Hin].
  - now rewrite Z.eqb_refl.
  - inversion Hnd as [|x l Hnotin Hnd']; subst.
    destruct (Z.eqb_spec (id a) (id m)) as [E|_].
    + exfalso. apply Hnotin. rewrite E. now apply in_map.
    + now apply IH.
Qed.

(** C8, as stated, fails when a frame holds the target identity twice: the
    lookup takes the first match only.  Here the first marker with identity
    1 is 50 pixels away and the second 5 pixels away: the frame contains a
    target marker within the threshold, and the phase stays ALIGNING. *)
Lemma aligning_first_match_only :
  let ms := [mkMarker 1 160 242 50; mkMarker 1 160 187 5] in
  let s := mkState ALIGNING 1 0 1 0 0 in
  (exists m, In m ms /\ id m = target_id s /\ distance m <= THRESHOLD) /\
  phase (fst (update_state 5 ms 150 150 s)) = ALIGNING.
Proof.
  split; [|reflexivity].
  exists (mkMarker 1 160 187 5). simpl. repeat split; auto.
  apply Qle_bool_imp_le. reflexivity.
Qed.

(** C8 (amended). In phase ALIGNING a call moves to APPROACHING exactly
    when the first marker of the frame carrying the target identity is
    within the threshold, and stays in ALIGNING otherwise; a frame without
    the target identity (the empty frame included) leaves the phase at
    ALIGNING; when the identities of the frame are pairwise distinct, the
    move happens exactly when the frame contains a marker with the target
    identity within the threshold. *)
Theorem aligning_gate :
  forall (now : Q) (markers : list MarkerInfo) (h th : Q)
         (s : NavigationState),
    phase s = ALIGNING ->
    let s' := fst (update_state now markers h th s) in
    (phase s' = APPROACHING <->
     exists pre m post,
       markers = pre ++ m :: post /\
       (forall x, In x pre -> id x <> target_id s) /\
       id m = target_id s /\ distance m <= THRESHOLD) /\
    (phase s' = APPROACHING \/ phase s' = ALIGNING) /\
    ((forall m, In m markers -> id m <> target_id s) -> phase s' = ALIGNING) /\
    (NoDup (map id markers) ->
     (phase s' = APPROACHING <->
      exists m, In m markers /\ id m = target_id s /\
                distance m <= THRESHOLD)).
Proof.
  intros now markers h th s Hp s'.
  assert (E := aligning_phase now markers h th s Hp). fold s' in E.
  clearbody s'.
  destruct (find_target (target_id s) markers) as [m|] eqn:Hfind.
  - pose proof (proj1 (find_target_first _ _ _) Hfind)
      as (pre & post & Hms & Hid & Hpre).
    destruct (find_target_some _ _ _ Hfind) as [Hin _].
    destruct (Qle_bool (distance m) THRESHOLD) eqn:Hd; bool_facts.
    + split; [|split; [|split]]; auto.
      * split; [intros _|intros _; exact E].
        exists pre, m, post. auto.
      * intros Hno. exfalso. now apply (Hno m).
      * intros _. split; [intros _|intros _; exact E]. exists m. auto.
    + assert (Hfar : forall m', find_target (target_id s) markers = Some m' ->
                                ~ distance m' <= THRESHOLD).
      { intros m' Hm'. rewrite Hfind in Hm'. injection Hm' as <-.
        now apply Qlt_not_le. }
      split; [|split; [|split]]; auto.
      * split; [congruence|].
        intros (pre' & m' & post' & Hms' & Hpre' & Hid' & Hd').
        exfalso. apply (Hfar m'); [|exact Hd'].
        apply find_target_first. exists pre', post'. auto.
      * intros Hnd. split; [congruence|].
        intros (m' & Hin' & Hid' & Hd'). exfalso.
        apply (Hfar m'); [|exact Hd'].
        rewrite <- Hid'. now apply find_target_nodup.
  - pose proof (proj1 (find_target_none _ _) Hfind) as Hno.
    split; [|split; [|split]]; auto.
    + split; [congruence|].
      intros (pre & m & post & Hms & _ & Hid & _). exfalso.
      apply (Hno m); [|exact Hid]. rewrite Hms. apply in_elt.
    + intros _. split; [congruence|].
      intros (m & Hin & Hid & _). exfalso. now apply (Hno m).
Qed.

Lemma aligning_gate_witness :
  phase (fst (update_state 5 [mkMarker 2 100 100 110; mkMarker 1 160 187 5]
                           150 150 (mkState ALIGNING 1 0 0 0 0)))
  = APPROACHING.
Proof.
  apply (proj1 (aligning_gate 5 [mkMarker 2 100 100 110; mkMarker 1 160 187 5]
                              150 150 (mkState ALIGNING 1 0 0 0 0) eq_refl)).
  exists [mkMarker 2 100 100 110], (mkMarker 1 160 187 5), [].
  simpl. repeat split.
  - intros x [<-|[]]. discriminate.
  - apply Qle_bool_imp_le. reflexivity.
Defined.

(** *** Staleness of the target *)

Lemma update_state_last_target_time (now : Q) (ms : list MarkerInfo)
      (h th : Q) (s : NavigationState) :
  last_target_time (fst (update_state now ms h th s))
  = match find_target (target_id s) ms with
    | Some _ => now
    | None => last_target_time s
    end.
Proof.
  rewrite update_state_unfold.
  destruct (update_max_id_target now ms s) as (_ & _ & _ & Hlt).
  destruct s as [p t r mx lt lm]. simpl in *.
  destruct (find_target t ms); unfold handle_phase;
    split_step; simpl; auto.
Qed.

Lemma find_target_frame_has (s : NavigationState) (k : Tick) :
  frame_has (target_id s) k
  = match find_target (target_id s) (tick_markers k) with
    | Some _ => true
    | None => false
    end.
Proof.
  unfold frame_has, find_target.
  induction (tick_markers k) as [|m ms IH]; simpl; [reflexivity|].
  destruct (id m =? target_id s)%Z; simpl; auto.
Qed.

Lemma step_last_target_time (s : NavigationState) (k : Tick) :
  last_target_time (step s k)
  = if frame_has (target_id s) k then tick_time k else last_target_time s.
Proof.
  unfold step. rewrite update_state_last_target_time, find_target_frame_has.
  destruct (find_target (target_id s) (tick_markers k)); reflexivity.
Qed.

Lemma run_sighting_time (ticks : list Tick) (s : NavigationState) :
  last_target_time (run ticks s)
  = sighting_time ticks s (last_target_time s).
Proof.
  revert s. induction ticks as [|k ticks IH]; intros s; [reflexivity|].
  rewrite run_cons, IH, step_last_target_time. reflexivity.
Qed.

(** While the target stays the same, the tracked time is the last sighting
    of that target. *)
Lemma sighting_time_same_target (post : list Tick) (s : NavigationState)
      (t : Q) :
  target_id (run post s) = target_id s ->
  sighting_time post s t
  = match last_seen (target_id s) post with
    | Some u => u
    | None => t
    end.
Proof.
  revert s t. induction post as [|k post IH]; intros s t Hsame;
    [reflexivity|].
  rewrite run_cons in Hsame.
  assert (Hk : target_id (step s k) = target_id s).
  { destruct (step_counters s k) as (H1 & _).
    destruct (run_counters post (step s k)) as (H2 & _). lia. }
  simpl. rewrite IH by congruence. rewrite Hk.
  destruct (last_seen (target_id s) post); [reflexivity|].
  destruct (frame_has (target_id s) k); reflexivity.
Qed.

Lemma last_seen_app (target : Z) (pre post : list Tick) :
  last_seen target (pre ++ post)
  = match last_seen target post with
    | Some u => Some u
    | None => last_seen target pre
    end.
Proof.
  induction pre as [|k pre IH]; simpl.
  - now destruct (last_seen target post).
  - rewrite IH. destruct (last_seen target post); reflexivity.
Qed.

Lemma last_seen_some (target : Z) (ticks : list Tick) :
  (exists k m, In k ticks /\ In m (tick_markers k) /\ id m = target) ->
  exists u, last_seen target ticks = Some u.
Proof.
  induction ticks as [|k ticks IH]; intros (k' & m & Hk & Hm & Hid).
  - destruct Hk.
  - simpl. destruct (last_seen target ticks) as [u|] eqn:E; [eauto|].
    destruct Hk as [<-|Hk].
    + assert (Hf : frame_has target k = true).
      { unfold frame_has. apply existsb_exists. exists m.
        split; [exact Hm | now apply Z.eqb_eq]. }
      rewrite Hf. eauto.
    + destruct IH as [u Hu]; [eauto | discriminate].
Qed.

(** C10, as stated, fails after an advance: [last_target_time] is not
    reset when the target moves on.  Marker 2 was last in a frame at time
    2; the call at time 10 reaches marker 1 and makes 2 the target; at time
    12 the current target has not been seen for 10 seconds, above the
    timeout of 3, and [is_target_lost] answers False. *)
Lemma target_lost_after_advance :
  let ticks := [mkTick 1 [] 150 150;
                mkTick 2 [mkMarker 2 100 100 110; mkMarker 1 160 190 2]
                       150 150;
                mkTick 10 [mkMarker 1 160 190 2] 150 150] in
  let s := run ticks (initial_state 0 0) in
  target_id s = 2%Z /\
  last_seen (target_id s) ticks = Some 2 /\
  TARGET_LOST_TIMEOUT_SEC < 12 - 2 /\
  is_target_lost 12 s = false.
Proof. repeat split. Qed.

(** C10 (amended). [is_target_lost] is true exactly when the time elapsed
    since [last_target_time] is strictly above the timeout, and false at or
    below it, in particular at the timeout itself and one unit below it.
    Along a run from the initial state [last_target_time] is the time of
    the latest call whose frame held the identity that was the target when
    that call began, and the construction time before any such call; it is
    the last sighting of the current target whenever the current target
    has been in a frame since it became the target. *)
Theorem target_lost_since_tracked_sighting :
  forall (pre post : list Tick) (t_target t_max now : Q),
    let s0 := initial_state t_target t_max in
    let ticks := pre ++ post in
    let s := run ticks s0 in
    let seen := sighting_time ticks s0 t_target in
    last_target_time s = seen /\
    (is_target_lost now s = true <-> TARGET_LOST_TIMEOUT_SEC < now - seen) /\
    (is_target_lost now s = false <->
     now - seen <= TARGET_LOST_TIMEOUT_SEC) /\
    (now - seen == TARGET_LOST_TIMEOUT_SEC -> is_target_lost now s = false)
    /\
    (now - seen == TARGET_LOST_TIMEOUT_SEC - 1 ->
     is_target_lost now s = false) /\
    (target_id (run pre s0) = target_id s ->
     (exists k m, In k post /\ In m (tick_markers k) /\
                  id m = target_id s) ->
     last_seen (target_id s) ticks = Some seen).
Proof.
  intros pre post t_target t_max now s0 ticks s seen.
  assert (Hseen : last_target_time s = seen).
  { subst s seen. now rewrite run_sighting_time. }
  split; [exact Hseen|].
  unfold is_target_lost. rewrite Hseen.
  split; [apply Qlt_bool_iff|].
  split; [apply Qlt_bool_false_iff|].
  split; [|split].
  - intros H. apply Qlt_bool_false_iff. rewrite H. apply Qle_refl.
  - intros H. apply Qlt_bool_false_iff. rewrite H.
    unfold TARGET_LOST_TIMEOUT_SEC. lra.
  - intros Hsame Hex.
    destruct (last_seen_some _ _ Hex) as [u Hu].
    subst ticks. rewrite last_seen_app, Hu. f_equal.
    rewrite <- Hseen. subst s. rewrite run_app in *.
    rewrite run_sighting_time.
    rewrite sighting_time_same_target by congruence.
    rewrite Hsame, Hu. reflexivity.
Qed.

Lemma target_lost_since_tracked_sighting_witness :
  let pre := [mkTick 1 [] 150 150;
              mkTick 2 [mkMarker 1 160 190 2] 150 150;
              mkTick 3 [mkMarker 1 160 190 2] 150 150] in
  let post := [mkTick 5 [mkMarker 2 100 100 110] 150 150;
               mkTick 6 [] 150 150] in
  last_seen (target_id (run (pre ++ post) (initial_state 0 0)))
            (pre ++ post)
  = Some (sighting_time (pre ++ post) (initial_state 0 0) 0).
Proof.
  refine (proj2 (proj2 (proj2 (proj2 (proj2
            (target_lost_since_tracked_sighting
               [mkTick 1 [] 150 150;
                mkTick 2 [mkMarker 1 160 190 2] 150 150;
                mkTick 3 [mkMarker 1 160 190 2] 150 150]
               [mkTick 5 [mkMarker 2 100 100 110] 150 150;
                mkTick 6 [] 150 150]
               0 0 7))))) eq_refl _).
  exists (mkTick 5 [mkMarker 2 100 100 110] 150 150),
         (mkMarker 2 100 100 110).
  simpl. auto.
Defined.

(** *** Replay *)

Lemma step_progress (s1 s2 : NavigationState) (k1 k2 : Tick) :
  progress s1 = progress s2 -> tick_args k1 = tick_args k2 ->
  progress (step s1 k1) = progress (step s2 k2).
Proof.
  destruct s1 as [p1 t1 r1 mx1 lt1 lm1], s2 as [p2 t2 r2 mx2 lt2 lm2].
  destruct k1 as [now1 ms1 h1 th1], k2 as [now2 ms2 h2 th2].
  unfold progress, tick_args. simpl. intros [= -> -> -> ->] [= -> -> ->].
  unfold step. rewrite !update_state_unfold. simpl.
  destruct (find_target t2 ms2) as [m|]; unfold handle_phase;
    open_step; split_step; reflexivity.
Qed.

Lemma run_progress (ticks1 ticks2 : list Tick) (s1 s2 : NavigationState) :
  progress s1 = progress s2 ->
  map tick_args ticks1 = map tick_args ticks2 ->
  progress (run ticks1 s1) = progress (run ticks2 s2).
Proof.
  revert ticks2 s1 s2.
  induction ticks1 as [|k1 ticks1 IH]; intros [|k2 ticks2] s1 s2 Hs;
    simpl; try discriminate; auto.
  intros [= Hm Hh Hth Hrest]. apply IH; [|exact Hrest].
  apply step_progress; [exact Hs|]. unfold tick_args. congruence.
Qed.

Lemma ticks_determined (ticks1 ticks2 : list Tick) :
  map tick_args ticks1 = map tick_args ticks2 ->
  map tick_time ticks1 = map tick_time ticks2 ->
  ticks1 = ticks2.
Proof.
  revert ticks2.
  induction ticks1 as [|k1 ticks1 IH]; intros [|k2 ticks2];
    simpl; try discriminate; auto.
  intros [= Hm Hh Hth Hrest] [= Ht Htimes].
  f_equal; [|now apply IH].
  destruct k1, k2; simpl in *; congruence.
Qed.

(** C4, as stated, fails: the clock is read inside the calls.  The same
    call on the same state with the same arguments gives two different
    states, and [is_target_lost] two different answers, for two readings of
    the clock. *)
Lemma clock_read_inside :
  let s := initial_state 0 0 in
  let ms := [mkMarker 1 160 192 0] in
  fst (update_state 1 ms 150 150 s) <> fst (update_state 2 ms 150 150 s) /\
  is_target_lost 2 s = false /\
  is_target_lost 4 s = true /\
  should_update_max_id 4 s = false /\
  should_update_max_id 6 s = true.
Proof.
  repeat split; try reflexivity.
  intros H. apply (f_equal last_target_time) in H. discriminate H.
Qed.

(** C4 (amended). [update_state], [is_target_lost] and
    [should_update_max_id] are functions of their explicit arguments, the
    prior state and the clock reading taken inside the call.  Two runs from
    the initial state given the same sequence of arguments agree on phase,
    [target_id], [reached_id] and [max_id] after every call, whatever the
    clock readings; when the clock readings agree too, the states and the
    boolean results agree. *)
Theorem replay_up_to_clock :
  forall (ticks1 ticks2 : list Tick) (a b c d : Q) (n : nat),
    map tick_args ticks1 = map tick_args ticks2 ->
    let s1 := run (firstn n ticks1) (initial_state a b) in
    let s2 := run (firstn n ticks2) (initial_state c d) in
    progress s1 = progress s2 /\
    (map tick_time ticks1 = map tick_time ticks2 -> a = c -> b = d ->
     s1 = s2 /\
     forall now, is_target_lost now s1 = is_target_lost now s2 /\
                 should_update_max_id now s1 = should_update_max_id now s2).
Proof.
  intros ticks1 ticks2 a b c d n Hargs s1 s2. split.
  - apply run_progress; [reflexivity|].
    rewrite <- !firstn_map. now rewrite Hargs.
  - intros Htimes -> ->.
    assert (E : s1 = s2).
    { subst s1 s2. now rewrite (ticks_determined _ _ Hargs Htimes). }
    rewrite E. auto.
Qed.

Lemma replay_up_to_clock_witness :
  progress (run (firstn 2 [mkTick 1 [] 150 150;
                           mkTick 2 [mkMarker 1 160 190 2] 150 150])
                (initial_state 0 0))
  = progress (run (firstn 2 [mkTick 5 [] 150 150;
                             mkTick 9 [mkMarker 1 160 190 2] 150 150])
                  (initial_state 3 4)).
Proof.
  exact (proj1 (replay_up_to_clock
                  [mkTick 1 [] 150 150;
                   mkTick 2 [mkMarker 1 160 190 2] 150 150]
                  [mkTick 5 [] 150 150;
                   mkTick 9 [mkMarker 1 160 190 2] 150 150]
                  0 0 3 4 2 eq_refl)).
Defined.

(** * Properties of the control law *)

Lemma clamp_in_range (v : Z) : in_range (clamp v).
Proof. unfold in_range, clamp. lia. Qed.

Lemma clamp_id (v : Z) : in_range v -> clamp v = v.
Proof. unfold in_range, clamp. lia. Qed.

Lemma clamp_values_in_range (cv : ControlValues) :
  in_range (left_right (clamp_values cv)) /\
  in_range (forward_backward (clamp_values cv)) /\
  in_range (up_down (clamp_values cv)) /\
  in_range (yaw (clamp_values cv)).
Proof. simpl. repeat split; apply clamp_in_range. Qed.

Lemma zero_values_in_range :
  in_range (left_right zero_values) /\
  in_range (forward_backward zero_values) /\
  in_range (up_down zero_values) /\
  in_range (yaw zero_values).
Proof. unfold in_range. simpl. lia. Qed.

(** The three cases of the open-loop height control. *)
Lemma height_control_cases (h th : Q) :
  (th + HEIGHT_TOLERANCE_CM < h ->
   height_control h th zero_values = mkControl 0 0 (-20) 0) /\
  (h < th - HEIGHT_TOLERANCE_CM ->
   height_control h th zero_values = mkControl 0 0 20 0) /\
  (th - HEIGHT_TOLERANCE_CM <= h <= th + HEIGHT_TOLERANCE_CM ->
   height_control h th zero_values = zero_values).
Proof.
  unfold height_control, HEIGHT_TOLERANCE_CM.
  destruct (Qlt_bool (th + 4) h) eqn:Hup;
    destruct (Qlt_bool h (th - 4)) eqn:Hdown;
    bool_facts; repeat split; intros; try reflexivity; lra.
Qed.

Section ControlLaw.

Variable arctan_deg : Q -> Q.
Variable PID : Type.
Variable pid_call : PID -> npfloat -> PID * option npfloat.

Local Abbreviation controller := (NavigationController PID).
Local Abbreviation control := (calculate_control arctan_deg PID pid_call).

(** C1. Whatever the phase, the marker (present or absent), the heights
    and the behaviour of the PID objects, every field of the dictionary
    returned by [calculate_control] lies in [-100, 100]. *)
Theorem command_in_range :
  forall (target_marker : option MarkerInfo) (h th : Q) (c : controller),
    let cv := snd (control target_marker h th c) in
    in_range (left_right cv) /\ in_range (forward_backward cv) /\
    in_range (up_down cv) /\ in_range (yaw cv).
Proof.
  intros target_marker h th c. unfold calculate_control.
  destruct target_marker as [m|].
  - destruct (marker_control arctan_deg PID pid_call m _) as [c' [cv|]].
    + apply clamp_values_in_range.
    + apply zero_values_in_range.
  - apply clamp_values_in_range.
Qed.

Lemma control_none (h th : Q) (c : controller) :
  control None h th c
  = (set_control_values PID
       (clamp_values (height_control h th zero_values))
       (set_control_values PID (height_control h th zero_values) c),
     clamp_values (height_control h th zero_values)).
Proof. reflexivity. Qed.

(** C9. With no target marker, [left_right], [forward_backward] and [yaw]
    are 0 and [up_down] is -20 above the band, 20 below it and 0 inside it;
    within tolerance of the target height the whole command is zero.  The
    navigation state is left as it was. *)
Theorem no_target_command :
  forall (h th : Q) (c : controller),
    let cv := snd (control None h th c) in
    left_right cv = 0%Z /\ forward_backward cv = 0%Z /\ yaw cv = 0%Z /\
    (th + HEIGHT_TOLERANCE_CM < h -> up_down cv = (-20)%Z) /\
    (h < th - HEIGHT_TOLERANCE_CM -> up_down cv = 20%Z) /\
    (th - HEIGHT_TOLERANCE_CM <= h <= th + HEIGHT_TOLERANCE_CM ->
     up_down cv = 0%Z) /\
    (Qabs (h - th) <= HEIGHT_TOLERANCE_CM -> cv = zero_values) /\
    state PID (fst (control None h th c)) = state PID c.
Proof.
  intros h th c. rewrite control_none. cbn [snd fst].
  destruct (height_control_cases h th) as (Hup & Hdown & Hmid).
  split; [|split; [|split]].
  1-3: unfold height_control; split_step; reflexivity.
  split; [|split; [|split; [|split]]].
  - intros H. now rewrite (Hup H).
  - intros H. now rewrite (Hdown H).
  - intros H. now rewrite (Hmid H).
  - intros H. apply Qabs_Qle_condition in H. unfold HEIGHT_TOLERANCE_CM in *.
    rewrite Hmid; [reflexivity|]. lra.
  - reflexivity.
Qed.

End ControlLaw.

Lemma no_target_command_witness :
  snd (calculate_control (fun x => x) unit (fun p v => (p, Some v))
         None 150 150
         (mkController unit tt tt tt
            (mkState APPROACHING 1 0 1 0 0) zero_values))
  = zero_values.
Proof.
  apply (no_target_command (fun x => x) unit (fun p v => (p, Some v))
           150 150
           (mkController unit tt tt tt
              (mkState APPROACHING 1 0 1 0 0) zero_values)).
  apply Qle_bool_imp_le. reflexivity.
Defined.

(** * The rotation error *)

Section RotationError.

Variable arctan_deg : Q -> Q.

Local Abbreviation rot := (rotation_error arctan_deg).

(** What lines 139-145 compute on the scalars they receive. *)
Lemma rotation_error_cases (dx dy : Q) :
  (dx == 0 -> rot dx dy = Finite 0) /\
  (~ dx == 0 -> ~ dy == 0 -> rot dx dy = Finite (arctan_deg (dx / dy))) /\
  (0 < dx -> dy == 0 -> rot dx dy = Finite 90) /\
  (dx < 0 -> dy == 0 -> rot dx dy = Finite (-90)).
Proof.
  unfold rotation_error, rotation_error_with, np_true_divide.
  repeat split.
  - intros H. apply Qeq_bool_iff in H. now rewrite H.
  - intros Hx Hy.
    destruct (Qeq_bool dx 0) eqn:Ex; [apply Qeq_bool_iff in Ex; tauto|].
    destruct (Qeq_bool dy 0) eqn:Ey; [apply Qeq_bool_iff in Ey; tauto|].
    reflexivity.
  - intros Hx Hy.
    destruct (Qeq_bool dx 0) eqn:Ex; [apply Qeq_bool_iff in Ex; lra|].
    apply Qeq_bool_iff in Hy.
    assert (Hc : (dx ?= 0) = Gt) by now apply Qgt_alt.
    rewrite Hy, Hc. reflexivity.
  - intros Hx Hy.
    destruct (Qeq_bool dx 0) eqn:Ex; [apply Qeq_bool_iff in Ex; lra|].
    apply Qeq_bool_iff in Hy.
    assert (Hc : (dx ?= 0) = Lt) by now apply Qlt_alt.
    rewrite Hy, Hc. reflexivity.
Qed.

(** With builtin floats the division would raise and the handler would
    give 0 on a zero [dy]. *)
Lemma rotation_error_builtin_floats (dx dy : Q) :
  dy == 0 -> rotation_error_with arctan_deg float_true_divide dx dy = Finite 0.
Proof.
  intros Hy. unfold rotation_error_with, float_true_divide.
  apply Qeq_bool_iff in Hy. rewrite Hy. now destruct (Qeq_bool dx 0).
Qed.

Variable PID : Type.
Variable pid_call : PID -> npfloat -> PID * option npfloat.

(** C3. A marker on the row [TARGET_Y], right of [TARGET_X]: [dy] is zero
    and [dx] is not.  The division of the two numpy scalars raises nothing
    and returns an infinity, so the handler is not entered: the rotation
    error is 90, not 0, and in phase ALIGNING the yaw PID is fed -90.  The
    call itself returns a command. *)
Theorem rotation_error_zero_divisor :
  forall (px py pr : PID),
    let m := mkMarker 1 170 192 10 in
    let c := mkController PID px py pr
                          (mkState ALIGNING 1 0 1 0 0) zero_values in
    error_y m == 0 /\
    ~ error_x m == 0 /\
    rot (error_x m) (error_y m) = Finite 90 /\
    rotation_error_with arctan_deg float_true_divide (error_x m) (error_y m)
    = Finite 0 /\
    snd (calculate_control arctan_deg PID pid_call (Some m) 150 150 c)
    = match snd (pid_call pr (Finite (-90))) with
      | Some x => match int_of_float x with
                  | Some v => mkControl 0 0 0 (clamp v)
                  | None => zero_values
                  end
      | None => zero_values
      end.
Proof.
  intros px py pr m c.
  split; [reflexivity|]. split; [discriminate|].
  split; [reflexivity|]. split; [reflexivity|].
  unfold calculate_control, marker_control, int_pid.
  subst c. cbn [phase state set_control_values pid_r control_values].
  change (rotation_error arctan_deg (error_x m) (error_y m))
    with (Finite 90).
  change (np_neg (Finite 90)) with (Finite (-90)).
  destruct (pid_call pr (Finite (-90))) as [p [x|]]; simpl;
    [destruct (int_of_float x); reflexivity | reflexivity].
Qed.

End RotationError.

(** * Further properties of the tracker *)

Lemma step_unfold (s : NavigationState) (k : Tick) :
  step s k
  = handle_phase (find_target (target_id s) (tick_markers k))
      (tick_height k) (tick_target_height k)
      (match find_target (target_id s) (tick_markers k) with
       | Some _ => set_last_target_time (tick_time k)
                     (update_max_id (tick_time k) (tick_markers k) s)
       | None => update_max_id (tick_time k) (tick_markers k) s
       end).
Proof. unfold step. apply update_state_unfold. Qed.

Lemma handle_phase_max_id (tm : option MarkerInfo) (h th : Q)
      (s : NavigationState) :
  max_id (handle_phase tm h th s) = max_id s /\
  last_max_id_time (handle_phase tm h th s) = last_max_id_time s.
Proof.
  destruct s as [p t r mx lt lm]. unfold handle_phase. simpl.
  destruct p, tm; split_step; auto.
Qed.

Lemma step_max_id (s : NavigationState) (k : Tick) :
  max_id (step s k) = max_id (update_max_id (tick_time k) (tick_markers k) s)
  /\ last_max_id_time (step s k)
     = last_max_id_time (update_max_id (tick_time k) (tick_markers k) s).
Proof.
  rewrite step_unfold.
  destruct (handle_phase_max_id
              (find_target (target_id s) (tick_markers k))
              (tick_height k) (tick_target_height k)
              (match find_target (target_id s) (tick_markers k) with
               | Some _ => set_last_target_time (tick_time k)
                             (update_max_id (tick_time k) (tick_markers k) s)
               | None => update_max_id (tick_time k) (tick_markers k) s
               end)) as [-> ->].
  destruct (find_target (target_id s) (tick_markers k)); auto.
Qed.

Lemma update_max_id_value (now : Q) (ms : list MarkerInfo)
      (s : NavigationState) :
  (forall m, In m ms -> (id m <= max_id (update_max_id now ms s))%Z) /\
  (max_id (update_max_id now ms s) = max_id s \/
   exists m, In m ms /\ id m = max_id (update_max_id now ms s)).
Proof.
  destruct ms as [|a ms]; [simpl; split; [tauto | now left]|].
  destruct (max_marker_id_is_max a ms) as [Hin Hup].
  apply in_map_iff in Hin. destruct Hin as (w & Hw & Hin).
  unfold update_max_id.
  destruct (Z.ltb_spec (max_id s) (max_marker_id a ms)) as [Hlt|Hge];
    simpl max_id.
  - split.
    + intros m Hm. apply Hup. now apply in_map.
    + right. exists w. auto.
  - split.
    + intros m Hm. specialize (Hup (id m) (in_map id _ _ Hm)). lia.
    + now left.
Qed.

Lemma run_max_id (ticks : list Tick) (s : NavigationState) :
  (forall k m, In k ticks -> In m (tick_markers k) ->
               (id m <= max_id (run ticks s))%Z) /\
  (max_id (run ticks s) = max_id s \/
   exists k m, In k ticks /\ In m (tick_markers k) /\
               id m = max_id (run ticks s)).
Proof.
  revert s. induction ticks as [|k ticks IH]; intros s.
  - simpl. split; [tauto | now left].
  - rewrite run_cons. destruct (IH (step s k)) as [Hup Hsrc].
    destruct (step_max_id s k) as [Emax _].
    destruct (update_max_id_value (tick_time k) (tick_markers k) s)
      as [Hup0 Hsrc0].
    rewrite <- Emax in Hup0, Hsrc0.
    destruct (run_counters ticks (step s k)) as (_ & Hmono & _).
    split.
    + intros k' m [<-|Hk'] Hm.
      * specialize (Hup0 m Hm). lia.
      * now apply (Hup k').
    + destruct Hsrc as [E|(k' & m & Hk' & Hm & E)].
      * rewrite E. destruct Hsrc0 as [E0|(m & Hm & E0)]; [now left|].
        right. exists k, m. simpl. auto.
      * right. exists k', m. simpl. auto.
Qed.

Lemma step_phase_value (s : NavigationState) (k : Tick) :
  phase_value (phase (step s k)) = phase_value (phase s) \/
  phase_value (phase (step s k)) = (phase_value (phase s) + 1)%Z.
Proof.
  rewrite step_unfold.
  destruct (update_max_id_target (tick_time k) (tick_markers k) s)
    as (_ & _ & Hph & _).
  set (u := update_max_id (tick_time k) (tick_markers k) s) in *.
  assert (Hs2 : phase match find_target (target_id s) (tick_markers k) with
                      | Some _ => set_last_target_time (tick_time k) u
                      | None => u
                      end = phase s).
  { destruct (find_target (target_id s) (tick_markers k)); exact Hph. }
  set (s2 := match find_target (target_id s) (tick_markers k) with
             | Some _ => set_last_target_time (tick_time k) u
             | None => u
             end) in *.
  rewrite <- Hs2. clearbody s2. clear.
  destruct s2 as [p t r mx lt lm]. unfold handle_phase. simpl.
  destruct p; split_step; simpl; auto.
Qed.

(** X1. The phase only moves forward: a call keeps the phase or moves it
    to the next one of TAKEOFF, ALIGNING, APPROACHING, LANDING, and along
    any run the ordinal of the phase never decreases. *)
Theorem phase_never_regresses :
  forall (s : NavigationState) (k : Tick) (ticks : list Tick),
    (phase_value (phase (step s k)) = phase_value (phase s) \/
     phase_value (phase (step s k)) = (phase_value (phase s) + 1)%Z) /\
    (phase_value (phase s) <= phase_value (phase (run ticks s)))%Z.
Proof.
  intros s k ticks. split; [apply step_phase_value|].
  revert s. induction ticks as [|k' ticks IH]; intros s; simpl; [lia|].
  specialize (IH (step s k')). fold (run ticks (step s k')) in IH.
  destruct (step_phase_value s k'); lia.
Qed.

(** X2. Along any run from the initial state, [max_id] is at least every
    identity of every frame seen so far, and it is either the initial 0 or
    an identity that was in one of the frames. *)
Theorem max_id_largest_seen :
  forall (ticks : list Tick) (t_target t_max : Q),
    let s := run ticks (initial_state t_target t_max) in
    (forall k m, In k ticks -> In m (tick_markers k) ->
                 (id m <= max_id s)%Z) /\
    (max_id s = 0%Z \/
     exists k m, In k ticks /\ In m (tick_markers k) /\ id m = max_id s).
Proof.
  intros ticks t_target t_max.
  exact (run_max_id ticks (initial_state t_target t_max)).
Qed.

(** *** What a call does to the two counters *)

Lemma step_counters_cases (s : NavigationState) (k : Tick) :
  (target_id (step s k) = target_id s /\
   reached_id (step s k) = reached_id s) \/
  (phase s = APPROACHING /\ phase (step s k) = APPROACHING /\
   target_id s <> 0%Z /\
   target_id (step s k) = (target_id s + 1)%Z /\
   reached_id (step s k) = (reached_id s + 1)%Z /\
   exists m, find_target (target_id s) (tick_markers k) = Some m /\
             distance m <= THRESHOLD).
Proof.
  rewrite step_unfold.
  destruct (update_max_id_target (tick_time k) (tick_markers k) s)
    as (Ht & Hr & Hph & _).
  set (u := update_max_id (tick_time k) (tick_markers k) s) in *.
  destruct (find_target (target_id s) (tick_markers k)) as [m|] eqn:Hfind.
  - destruct u as [p t r mx lt lm]. simpl in *. subst p t r.
    unfold handle_phase. simpl.
    destruct (phase s); simpl; try (split_step; now left).
    destruct (Qle_bool (distance m) THRESHOLD) eqn:Hd; [|now left].
    destruct (Z.eqb_spec (target_id s) 0) as [E|N]; [now left|].
    right. simpl. repeat split; auto.
    exists m. split; [reflexivity|]. now apply Qle_bool_iff.
  - destruct u as [p t r mx lt lm]. simpl in *. subst p t r.
    unfold handle_phase. simpl. left. destruct (phase s); split_step; auto.
Qed.

(** X3. A call moves [target_id] and [reached_id] exactly under one
    condition: phase APPROACHING, a non-zero target, and the first marker
    of the frame with the target identity within the threshold.  Under it
    both grow by one and the phase stays APPROACHING; otherwise both are
    left as they were. *)
Theorem advance_exactly_on_sighting :
  forall (now : Q) (markers : list MarkerInfo) (h th : Q)
         (s : NavigationState),
    let s' := fst (update_state now markers h th s) in
    let reached :=
      phase s = APPROACHING /\ target_id s <> 0%Z /\
      exists m, find_target (target_id s) markers = Some m /\
                distance m <= THRESHOLD in
    (reached ->
     target_id s' = (target_id s + 1)%Z /\
     reached_id s' = (reached_id s + 1)%Z /\
     phase s' = APPROACHING) /\
    (~ reached ->
     target_id s' = target_id s /\ reached_id s' = reached_id s).
Proof.
  intros now markers h th s s' reached. split.
  - intros (Hp & Hn & m & Hf & Hd). subst s'.
    rewrite update_state_unfold, Hf.
    destruct (update_max_id_target now markers s) as (Ht & Hr & Hph & _).
    apply Qle_bool_iff in Hd. apply Z.eqb_neq in Hn.
    unfold handle_phase. simpl. rewrite Hph, Hp, Hd, Ht, Hn. simpl.
    rewrite ?Hph, ?Hr, ?Ht. auto.
  - intros Hnot.
    destruct (step_counters_cases s (mkTick now markers h th))
      as [H|(Hp & _ & Hn & _ & _ & m & Hf & Hd)]; [exact H|].
    exfalso. apply Hnot. split; [exact Hp|]. split; [exact Hn|].
    exists m. auto.
Qed.

Lemma advance_exactly_on_sighting_witness :
  let s' := fst (update_state 4 [mkMarker 3 40 50 186; mkMarker 2 163 196 5]
                              150 150 (mkState APPROACHING 2 1 2 3 3)) in
  target_id s' = 3%Z /\ reached_id s' = 2%Z /\ phase s' = APPROACHING.
Proof.
  refine (proj1 (advance_exactly_on_sighting
                   4 [mkMarker 3 40 50 186; mkMarker 2 163 196 5] 150 150
                   (mkState APPROACHING 2 1 2 3 3)) _).
  split; [reflexivity|]. split; [discriminate|].
  exists (mkMarker 2 163 196 5). split; [reflexivity|].
  apply Qle_bool_imp_le. reflexivity.
Defined.

(** *** States on course *)

Lemma step_on_course (s : NavigationState) (k : Tick) :
  (sequenced s /\ (reached_id s <= max_id s)%Z /\
   (phase s = APPROACHING \/ reached_id s = 0%Z)) ->
  sequenced (step s k) /\ (reached_id (step s k) <= max_id (step s k))%Z /\
  (phase (step s k) = APPROACHING \/ reached_id (step s k) = 0%Z).
Proof.
  intros (Hseq & Hmax & Hph).
  pose proof (step_sequenced s k Hseq) as Hseq'.
  split; [exact Hseq'|].
  destruct (step_counters s k) as (_ & Hmono & _).
  destruct Hseq as (Htr & _ & _).
  destruct (step_counters_cases s k)
    as [[Ht Hr]|(Hp & Hp' & Hn & Ht & Hr & m & Hf & Hd)].
  - split; [lia|].
    destruct Hph as [Hp|H0]; [|right; lia].
    left. destruct Hseq' as (_ & _ & Hnl).
    destruct (step_phase_value s k) as [E|E]; rewrite Hp in E;
      destruct (phase (step s k)); simpl in E; try lia; congruence.
  - split; [|now left].
    destruct (find_target_some _ _ _ Hf) as [Hin Hid].
    destruct (step_max_id s k) as [Emax _].
    destruct (update_max_id_value (tick_time k) (tick_markers k) s)
      as [Hup _].
    specialize (Hup m Hin). lia.
Qed.

Lemma run_on_course (ticks : list Tick) (t_target t_max : Q) :
  let s := run ticks (initial_state t_target t_max) in
  sequenced s /\ (reached_id s <= max_id s)%Z /\
  (phase s = APPROACHING \/ reached_id s = 0%Z).
Proof.
  apply (run_preserves
           (fun s => sequenced s /\ (reached_id s <= max_id s)%Z /\
                     (phase s = APPROACHING \/ reached_id s = 0%Z))).
  - exact step_on_course.
  - unfold sequenced, initial_state. simpl.
    split; [repeat split; [lia | discriminate]|]. split; [lia | now right].
Qed.

(** X4. In every state reached from the initial state, the markers counted
    as reached have all been observed: [reached_id <= max_id], and the
    target is at most one past the largest identity seen. *)
Theorem reached_below_max_id :
  forall (ticks : list Tick) (t_target t_max : Q),
    let s := run ticks (initial_state t_target t_max) in
    (reached_id s <= max_id s)%Z /\ (target_id s <= max_id s + 1)%Z.
Proof.
  intros ticks t_target t_max s.
  destruct (run_on_course ticks t_target t_max) as ((Ht & _ & _) & Hm & _).
  fold s in Ht, Hm. lia.
Qed.

(** X5. In every state reached from the initial state, a phase other than
    APPROACHING means that no marker has been reached yet: the target is
    still marker 1.  Once the first marker is reached the machine stays in
    APPROACHING, so the yaw alignment is never entered again. *)
Theorem aligning_only_before_first_marker :
  forall (ticks : list Tick) (t_target t_max : Q),
    let s := run ticks (initial_state t_target t_max) in
    (phase s = APPROACHING \/ (target_id s = 1%Z /\ reached_id s = 0%Z)) /\
    ((0 < reached_id s)%Z ->
     forall more, phase (run more s) = APPROACHING).
Proof.
  intros ticks t_target t_max s.
  destruct (run_on_course ticks t_target t_max) as ((Ht & _ & _) & _ & Hp).
  fold s in Ht, Hp. split.
  - destruct Hp as [Hp|H0]; [now left|right]. lia.
  - intros Hpos more.
    destruct (run_on_course (ticks ++ more) t_target t_max)
      as (_ & _ & Hp').
    rewrite run_app in Hp'. fold s in Hp'.
    destruct Hp' as [Hp'|H0]; [exact Hp'|].
    destruct (run_counters more s) as (_ & _ & Hr).
    assert (0 <= count_advances more s)%Z.
    { clear. generalize s. induction more as [|k more IH]; intros s0;
        simpl; [lia|]. specialize (IH (step s0 k)).
      destruct (advanced s0 (step s0 k)); lia. }
    lia.
Qed.

(** *** Frames that show nothing new *)

Lemma update_max_id_quiet (now : Q) (ms : list MarkerInfo)
      (s : NavigationState) :
  (forall m, In m ms -> (id m <= max_id s)%Z) -> update_max_id now ms s = s.
Proof.
  intros Hle. destruct ms as [|a ms]; [reflexivity|].
  unfold update_max_id.
  destruct (max_marker_id_is_max a ms) as [Hin _].
  apply in_map_iff in Hin. destruct Hin as (w & Hw & Hin).
  specialize (Hle w Hin).
  destruct (Z.ltb_spec (max_id s) (max_marker_id a ms)); [lia|reflexivity].
Qed.

Lemma update_max_id_raised (now : Q) (ms : list MarkerInfo)
      (s : NavigationState) :
  (exists m, In m ms /\ (max_id s < id m)%Z) ->
  last_max_id_time (update_max_id now ms s) = now /\
  (max_id s < max_id (update_max_id now ms s))%Z.
Proof.
  intros (m & Hin & Hlt). destruct ms as [|a ms]; [destruct Hin|].
  destruct (max_marker_id_is_max a ms) as [_ Hup].
  specialize (Hup (id m) (in_map id _ _ Hin)).
  unfold update_max_id.
  destruct (Z.ltb_spec (max_id s) (max_marker_id a ms)); [|lia].
  simpl. split; [reflexivity | lia].
Qed.

(** X6. A frame that holds neither the target identity nor an identity
    above [max_id] (the empty frame in particular) changes nothing outside
    TAKEOFF, whatever the clock and the heights; in TAKEOFF it can only
    move the phase to ALIGNING. *)
Theorem quiet_frame :
  forall (now : Q) (markers : list MarkerInfo) (h th : Q)
         (s : NavigationState),
    (forall m, In m markers ->
               id m <> target_id s /\ (id m <= max_id s)%Z) ->
    let s' := fst (update_state now markers h th s) in
    (phase s <> TAKEOFF -> s' = s) /\
    (phase s = TAKEOFF -> s' = s \/ s' = set_phase ALIGNING s).
Proof.
  intros now markers h th s Hq s'. subst s'.
  rewrite update_state_unfold.
  rewrite (proj2 (find_target_none (target_id s) markers));
    [|intros m Hm; apply (Hq m Hm)].
  rewrite update_max_id_quiet; [|intros m Hm; apply (Hq m Hm)].
  unfold handle_phase. split.
  - intros Hp. destruct (phase s); congruence.
  - intros ->.
    destruct (Qle_bool (Qabs (h - th)) HEIGHT_TOLERANCE_CM); auto.
Qed.

Lemma quiet_frame_witness :
  fst (update_state 9 [mkMarker 1 30 40 200] 80 150
                    (mkState APPROACHING 2 1 3 5 4))
  = mkState APPROACHING 2 1 3 5 4.
Proof.
  apply (quiet_frame 9 [mkMarker 1 30 40 200] 80 150
                     (mkState APPROACHING 2 1 3 5 4)).
  - intros m [<-|[]]. simpl. split; [discriminate | lia].
  - discriminate.
Defined.

(** X7. [should_update_max_id] is true exactly when more than
    [MAX_ID_TIME_RESET] seconds have passed since [last_max_id_time].  A
    call whose frame holds an identity above [max_id] sets that time to the
    time of the call, so the answer is then false for the next five
    seconds; a call whose frame holds no such identity leaves [max_id] and
    the time alone. *)
Theorem max_id_staleness :
  forall (now t : Q) (markers : list MarkerInfo) (h th : Q)
         (s : NavigationState),
    let s' := fst (update_state t markers h th s) in
    (should_update_max_id now s = true <->
     MAX_ID_TIME_RESET < now - last_max_id_time s) /\
    ((exists m, In m markers /\ (max_id s < id m)%Z) ->
     last_max_id_time s' = t /\
     (should_update_max_id now s' = false <-> now <= t + MAX_ID_TIME_RESET))
    /\
    ((forall m, In m markers -> (id m <= max_id s)%Z) ->
     last_max_id_time s' = last_max_id_time s /\ max_id s' = max_id s).
Proof.
  intros now t markers h th s s'.
  assert (Hs' : max_id s' = max_id (update_max_id t markers s) /\
                last_max_id_time s'
                = last_max_id_time (update_max_id t markers s))
    by exact (step_max_id s (mkTick t markers h th)).
  destruct Hs' as [Emax Etime]. clearbody s'.
  split; [apply Qlt_bool_iff|]. split.
  - intros Hex.
    destruct (update_max_id_raised t markers s Hex) as [Ht _].
    rewrite Ht in Etime. split; [exact Etime|].
    unfold should_update_max_id. rewrite Qlt_bool_false_iff, Etime.
    split; intros H; lra.
  - intros Hq. rewrite (update_max_id_quiet t markers s Hq) in Emax, Etime.
    auto.
Qed.

Lemma max_id_staleness_witness :
  should_update_max_id 12
    (fst (update_state 10 [mkMarker 4 100 100 110] 150 150
                       (mkState APPROACHING 2 1 3 1 1)))
  = false.
Proof.
  apply (proj2 (proj1 (proj2 (max_id_staleness
           12 10 [mkMarker 4 100 100 110] 150 150
           (mkState APPROACHING 2 1 3 1 1)))
         (ex_intro _ (mkMarker 4 100 100 110)
                   (conj (or_introl eq_refl) eq_refl)))).
  apply Qle_bool_imp_le. reflexivity.
Defined.

(** * Further properties of the control law *)

Lemma height_control_fields (h th : Q) :
  left_right (height_control h th zero_values) = 0%Z /\
  forward_backward (height_control h th zero_values) = 0%Z /\
  yaw (height_control h th zero_values) = 0%Z /\
  (up_down (height_control h th zero_values) = (-20)%Z \/
   up_down (height_control h th zero_values) = 0%Z \/
   up_down (height_control h th zero_values) = 20%Z).
Proof.
  unfold height_control.
  destruct (Qlt_bool (th + HEIGHT_TOLERANCE_CM) h);
    [|destruct (Qlt_bool h (th - HEIGHT_TOLERANCE_CM))];
    simpl; repeat split; auto.
Qed.

Section ControlLawModes.

Variable arctan_deg : Q -> Q.
Variable PID : Type.
Variable pid_call : PID -> npfloat -> PID * option npfloat.

Local Abbreviation controller := (NavigationController PID).
Local Abbreviation control := (calculate_control arctan_deg PID pid_call).
Local Abbreviation int_pid' := (int_pid PID pid_call).

Ltac pid_cases :=
  repeat match goal with
         | |- context [int_pid ?a ?b ?c ?d] =>
             let p := fresh "p" in
             let v := fresh "v" in
             destruct (int_pid a b c d) as [p [v|]] eqn:?;
             cbn [fst snd state pid_x pid_y pid_r control_values
                  set_pid_x set_pid_y set_pid_r set_control_values]
         end.

Ltac open_control h th :=
  unfold calculate_control, marker_control;
  cbn [fst snd state pid_x pid_y pid_r control_values
       set_pid_x set_pid_y set_pid_r set_control_values];
  let Hl := fresh "Hl" in
  let Hf := fresh "Hf" in
  let Hy := fresh "Hy" in
  let Hu := fresh "Hu" in
  destruct (height_control_fields h th) as (Hl & Hf & Hy & Hu);
  let hc := fresh "hc" in
  set (hc := height_control h th zero_values) in *;
  clearbody hc; destruct hc; cbn [left_right forward_backward up_down yaw] in *;
  subst.

(** X8. The two modes never mix: in phase ALIGNING the returned
    [left_right] and [forward_backward] are 0, in every other phase the
    returned [yaw] is 0, with or without a marker and whatever the PID
    objects do. *)
Theorem control_mode_split :
  forall (target_marker : option MarkerInfo) (h th : Q) (c : controller),
    let cv := snd (control target_marker h th c) in
    (phase (state PID c) = ALIGNING ->
     left_right cv = 0%Z /\ forward_backward cv = 0%Z) /\
    (phase (state PID c) <> ALIGNING -> yaw cv = 0%Z).
Proof.
  intros target_marker h th c. open_control h th.
  destruct target_marker as [m|]; [|simpl; auto].
  destruct (phase (state PID c)); pid_cases; simpl; split; intros;
    auto; congruence.
Qed.

(** X9. [calculate_control] never touches the navigation state; it calls
    no PID object without a marker, only the yaw PID in phase ALIGNING and
    only the two position PIDs in the other phases. *)
Theorem control_preserves_state :
  forall (target_marker : option MarkerInfo) (h th : Q) (c : controller),
    let c' := fst (control target_marker h th c) in
    state PID c' = state PID c /\
    (target_marker = None ->
     pid_x PID c' = pid_x PID c /\ pid_y PID c' = pid_y PID c /\
     pid_r PID c' = pid_r PID c) /\
    (phase (state PID c) = ALIGNING ->
     pid_x PID c' = pid_x PID c /\ pid_y PID c' = pid_y PID c) /\
    (phase (state PID c) <> ALIGNING -> pid_r PID c' = pid_r PID c).
Proof.
  intros target_marker h th c. open_control h th.
  destruct target_marker as [m|]; [|simpl; auto 6].
  destruct (phase (state PID c)); pid_cases; simpl;
    (split; [reflexivity|]); (split; [discriminate|]);
    split; intros; auto; congruence.
Qed.

(** X10. The returned [up_down] is always -20, 0 or 20, and it is the
    value of the height rule unless the whole command is the all-zero
    dictionary of the exception handler. *)
Theorem up_down_values :
  forall (target_marker : option MarkerInfo) (h th : Q) (c : controller),
    let cv := snd (control target_marker h th c) in
    (up_down cv = (-20)%Z \/ up_down cv = 0%Z \/ up_down cv = 20%Z) /\
    (cv = zero_values \/
     up_down cv = up_down (height_control h th zero_values)).
Proof.
  intros target_marker h th c.
  destruct (height_control_fields h th) as (_ & _ & _ & Hu).
  unfold calculate_control, marker_control.
  cbn [fst snd state pid_x pid_y pid_r control_values
       set_pid_x set_pid_y set_pid_r set_control_values].
  set (hc := height_control h th zero_values) in *. clearbody hc.
  assert (Hc : clamp (up_down hc) = up_down hc).
  { apply clamp_id. unfold in_range. lia. }
  destruct target_marker as [m|];
    [|cbn [snd clamp_values up_down]; rewrite Hc; auto].
  destruct (phase (state PID c)); pid_cases;
    cbn [snd clamp_values up_down set_yaw set_left_right
         set_forward_backward zero_values];
    rewrite ?Hc; auto.
Qed.

(** X11. When the PID call or the conversion of its output to an integer
    raises (a nan or infinite output, for example), the command is the
    all-zero dictionary: the height correction of the same call is dropped
    with it. *)
Theorem pid_failure_zeroes_command :
  forall (m : MarkerInfo) (h th : Q) (c : controller),
    let cv := snd (control (Some m) h th c) in
    (phase (state PID c) = ALIGNING ->
     snd (int_pid' (pid_r PID c)
            (np_neg (rotation_error arctan_deg (error_x m) (error_y m))))
     = None ->
     cv = zero_values) /\
    (phase (state PID c) <> ALIGNING ->
     snd (int_pid' (pid_x PID c) (Finite (- error_x m * 100))) = None \/
     snd (int_pid' (pid_y PID c) (Finite (- error_y m * 100))) = None ->
     cv = zero_values).
Proof.
  intros m h th c.
  unfold calculate_control, marker_control.
  cbn [fst snd state pid_x pid_y pid_r control_values
       set_pid_x set_pid_y set_pid_r set_control_values].
  split.
  - intros -> Hfail.
    destruct (int_pid PID pid_call _ _) as [p [v|]];
      [discriminate Hfail | reflexivity].
  - intros Hp Hfail.
    destruct (phase (state PID c)); try congruence;
      destruct (int_pid PID pid_call (pid_x PID c) _) as [p [v|]];
      cbn [fst snd state pid_x pid_y pid_r control_values
           set_pid_x set_pid_y set_pid_r set_control_values] in *;
      try reflexivity;
      destruct (int_pid PID pid_call (pid_y PID c) _) as [q [w|]];
      try reflexivity;
      destruct Hfail as [Hfail|Hfail]; discriminate Hfail.
Qed.

End ControlLawModes.

Lemma pid_failure_zeroes_command_witness :
  let c := mkController unit tt tt tt (mkState ALIGNING 1 0 1 0 0)
                        zero_values in
  let nan_pid := fun (p : unit) (_ : npfloat) => (p, Some NaN) in
  snd (calculate_control (fun x => x) unit nan_pid
         (Some (mkMarker 1 170 100 93)) 100 150 c) = zero_values /\
  up_down (snd (calculate_control (fun x => x) unit nan_pid
                  None 100 150 c)) = 20%Z.
Proof.
  split; [|reflexivity].
  exact (proj1 (pid_failure_zeroes_command
                  (fun x => x) unit (fun p _ => (p, Some NaN))
                  (mkMarker 1 170 100 93) 100 150
                  (mkController unit tt tt tt (mkState ALIGNING 1 0 1 0 0)
                                zero_values))
               eq_refl eq_refl).
Defined.

(** * Properties of the drone wrapper *)

Lemma in_range_enum (v : Z) :
  in_range v -> In v (map (fun n => (Z.of_nat n - 100)%Z) (seq 0 201)).
Proof.
  unfold in_range. intros H. apply in_map_iff.
  exists (Z.to_nat (v + 100)). split; [lia|].
  apply in_seq. lia.
Qed.

(** The binary64 product [v * 0.4], truncated, on every integer of
    [-100, 100]: evaluated on the floats themselves. *)
Lemma scale_table :
  forallb (fun v => match Drone.scale v with
                    | Some r => (r =? Z.quot (2 * v) 5)%Z
                    | None => false
                    end)
          (map (fun n => (Z.of_nat n - 100)%Z) (seq 0 201)) = true.
Proof. vm_compute. reflexivity. Qed.

Lemma scale_in_range (v : Z) :
  in_range v -> Drone.scale v = Some (Z.quot (2 * v) 5).
Proof.
  intros H. apply in_range_enum in H.
  pose proof (proj1 (forallb_forall _ _) scale_table v H) as E.
  cbv beta in E. destruct (Drone.scale v) as [r|]; [|discriminate].
  apply Z.eqb_eq in E. now subst.
Qed.

Lemma quot_scaled_bounds (v : Z) :
  in_range v ->
  (-40 <= Z.quot (2 * v) 5 <= 40)%Z /\
  (Z.abs (Z.quot (2 * v) 5) <= Z.abs v)%Z /\
  ((-2 <= v <= 2)%Z -> Z.quot (2 * v) 5 = 0%Z).
Proof.
  unfold in_range. intros H.
  pose proof (Z.quot_rem (2 * v) 5 ltac:(lia)) as Hq.
  pose proof (Z.rem_bound_abs (2 * v) 5 ltac:(lia)) as Hr.
  pose proof (Z.rem_sign_nz (2 * v) 5 ltac:(lia)) as Hs.
  destruct (Z.eq_dec (Z.rem (2 * v) 5) 0) as [E0|N0].
  - repeat split; lia.
  - specialize (Hs N0). repeat split; lia.
Qed.

(** X12. [send_rc_control] on values within [-100, 100]: when the wrapper
    is not connected nothing is handed to the library and the result is
    False; when it is, each value handed over is the input times two
    fifths, truncated toward zero (checked on the binary64 product with
    0.4), hence within [-40, 40] and 0 for inputs of magnitude at most 2,
    and the result is True exactly when the library call returns. *)
Theorem rc_scaling_exact :
  forall (ok : bool) (lr fb ud yw : Z) (d : Drone.DroneController),
    in_range lr -> in_range fb -> in_range ud -> in_range yw ->
    (Drone.not_ready d = true ->
     Drone.send_rc_control ok lr fb ud yw d = (None, false)) /\
    (Drone.not_ready d = false ->
     Drone.send_rc_control ok lr fb ud yw d
     = (Some (Z.quot (2 * lr) 5, Z.quot (2 * fb) 5,
              Z.quot (2 * ud) 5, Z.quot (2 * yw) 5), ok)) /\
    (forall v, in_range v ->
               (-40 <= Z.quot (2 * v) 5 <= 40)%Z /\
               (Z.abs (Z.quot (2 * v) 5) <= Z.abs v)%Z /\
               ((-2 <= v <= 2)%Z -> Z.quot (2 * v) 5 = 0%Z)).
Proof.
  intros ok lr fb ud yw d Hlr Hfb Hud Hyw. unfold Drone.send_rc_control.
  split; [intros ->; reflexivity|]. split; [|exact quot_scaled_bounds].
  intros ->.
  now rewrite (scale_in_range lr Hlr), (scale_in_range fb Hfb),
    (scale_in_range ud Hud), (scale_in_range yw Hyw).
Qed.

Lemma rc_scaling_exact_witness :
  Drone.send_rc_control true 100 (-57) 20 2
                        (Drone.mkDrone true true true 80)
  = (Some (40, -22, 8, 0)%Z, true).
Proof.
  apply (rc_scaling_exact true 100 (-57) 20 2
                          (Drone.mkDrone true true true 80));
    unfold in_range; try lia; reflexivity.
Defined.

(** *** The flags of the wrapper *)

Lemma exec_flags (d : Drone.DroneController) (op : Drone.Op) :
  (Drone.is_flying d = true -> Drone.is_connected d = true) /\
  (Drone.is_connected d = true -> Drone.has_drone d = true) ->
  (Drone.is_flying (Drone.exec d op) = true ->
   Drone.is_connected (Drone.exec d op) = true) /\
  (Drone.is_connected (Drone.exec d op) = true ->
   Drone.has_drone (Drone.exec d op) = true).
Proof.
  destruct d as [hd fl cn ht]. simpl. intros [Hf Hc].
  assert (Hfc : fl = true -> cn = true /\ hd = true) by auto.
  destruct op; simpl;
    unfold Drone.connect, Drone.takeoff, Drone.land, Drone.get_height,
      Drone.emergency_stop, Drone.cleanup, Drone.land, Drone.not_ready;
    simpl;
    repeat match goal with
           | |- context [if ?b then _ else _] => destruct b eqn:?
           | |- context [match ?x with _ => _ end] => destruct x eqn:?
           end;
    simpl in *; subst; split; intros; try discriminate; auto;
    try (destruct Hfc; auto; discriminate);
    destruct cn, hd; simpl in *; auto; discriminate.
Qed.

(** X13. After any sequence of wrapper operations on a fresh
    [DroneController], whatever the external calls do: [is_flying] implies
    [is_connected], [is_connected] implies that the drone object exists,
    and so the guard of [takeoff], [land], [send_rc_control] and
    [get_height] is just [not is_connected]. *)
Theorem drone_flags_consistent :
  forall (ops : list Drone.Op),
    let d := Drone.run_ops ops Drone.init in
    (Drone.is_flying d = true -> Drone.is_connected d = true) /\
    (Drone.is_connected d = true -> Drone.has_drone d = true) /\
    Drone.not_ready d = negb (Drone.is_connected d).
Proof.
  intros ops d.
  assert (H : (Drone.is_flying d = true -> Drone.is_connected d = true) /\
              (Drone.is_connected d = true -> Drone.has_drone d = true)).
  { subst d. unfold Drone.run_ops.
    assert (G : forall d0,
               (Drone.is_flying d0 = true -> Drone.is_connected d0 = true) /\
               (Drone.is_connected d0 = true -> Drone.has_drone d0 = true) ->
               (Drone.is_flying (fold_left Drone.exec ops d0) = true ->
                Drone.is_connected (fold_left Drone.exec ops d0) = true) /\
               (Drone.is_connected (fold_left Drone.exec ops d0) = true ->
                Drone.has_drone (fold_left Drone.exec ops d0) = true)).
    { induction ops as [|op ops IH]; intros d0 H0; [exact H0|].
      simpl. apply IH. now apply exec_flags. }
    apply G. simpl. split; discriminate. }
  destruct H as [Hf Hc]. split; [exact Hf|]. split; [exact Hc|].
  unfold Drone.not_ready.
  destruct (Drone.is_connected d); [rewrite Hc; reflexivity | reflexivity].
Qed.

(** *** The WiFi loop of [connect] *)

Lemma wifi_loop_spec (check : nat -> bool) (fuel e : nat) :
  (Drone.MAX_CONNECT_ATTEMPTS <= e + fuel)%nat ->
  (e <= Drone.MAX_CONNECT_ATTEMPTS)%nat ->
  (e <= Drone.wifi_loop check fuel e <= Drone.MAX_CONNECT_ATTEMPTS)%nat /\
  (forall k, (e <= k < Drone.wifi_loop check fuel e)%nat ->
             check k = false) /\
  ((Drone.wifi_loop check fuel e < Drone.MAX_CONNECT_ATTEMPTS)%nat ->
   check (Drone.wifi_loop check fuel e) = true).
Proof.
  revert e. induction fuel as [|fuel IH]; intros e Hfuel He; simpl.
  - split; [lia|]. split; [intros k Hk; lia | intros H; lia].
  - destruct (Nat.ltb_spec e Drone.MAX_CONNECT_ATTEMPTS) as [Hlt|Hge].
    + destruct (check e) eqn:Hc.
      * split; [lia|]. split; [intros k Hk; lia | intros _; exact Hc].
      * destruct (IH (S e)) as (Hr & Hfalse & Htrue); try lia.
        split; [lia|]. split; [|exact Htrue].
        intros k Hk. destruct (Nat.eq_dec k e) as [->|Hne]; [exact Hc|].
        apply Hfalse. lia.
    + split; [lia|]. split; [intros k Hk; lia | intros H; lia].
Qed.

Lemma wifi_loop_found (check : nat -> bool) :
  (Drone.wifi_loop check Drone.MAX_CONNECT_ATTEMPTS 0
   < Drone.MAX_CONNECT_ATTEMPTS)%nat <->
  exists k, (k < Drone.MAX_CONNECT_ATTEMPTS)%nat /\ check k = true.
Proof.
  destruct (wifi_loop_spec check Drone.MAX_CONNECT_ATTEMPTS 0)
    as (Hr & Hfalse & Htrue); try lia.
  split.
  - intros Hlt. eexists. split; [exact Hlt | now apply Htrue].
  - intros (k & Hk & Hc).
    destruct (Nat.lt_ge_cases
                (Drone.wifi_loop check Drone.MAX_CONNECT_ATTEMPTS 0)
                Drone.MAX_CONNECT_ATTEMPTS) as [Hlt|Hge]; [exact Hlt|].
    rewrite Hfalse in Hc; [discriminate | lia].
Qed.

(** X14. [connect] tries the WiFi at most [MAX_CONNECT_ATTEMPTS] = 10
    times and stops at the first successful check; it returns True exactly
    when one of these checks succeeds and the three Tello calls return.
    [is_connected] is set as soon as [Tello.connect] has returned: when
    only the battery query raises, [connect] returns False and the wrapper
    is connected all the same. *)
Theorem connect_attempts :
  forall (check : nat -> bool) (link : Drone.TelloLink)
         (d : Drone.DroneController),
    let n := Drone.wifi_loop check Drone.MAX_CONNECT_ATTEMPTS 0 in
    let wifi := exists k, (k < 10)%nat /\ check k = true in
    ((n <= 10)%nat /\ (forall k, (k < n)%nat -> check k = false) /\
     ((n < 10)%nat -> check n = true) /\
     forall fuel, (10 <= fuel)%nat -> Drone.wifi_loop check fuel 0 = n) /\
    (snd (Drone.connect check link d) = true <->
     wifi /\ link = Drone.Linked) /\
    (Drone.is_connected (fst (Drone.connect check link d)) = true <->
     Drone.is_connected d = true \/
     (wifi /\ (link = Drone.Linked \/ link = Drone.BatteryRaises))).
Proof.
  intros check link d n wifi.
  unfold Drone.connect. fold n.
  destruct (wifi_loop_spec check Drone.MAX_CONNECT_ATTEMPTS 0)
    as (Hr & Hfalse & Htrue); try (unfold Drone.MAX_CONNECT_ATTEMPTS; lia).
  pose proof (wifi_loop_found check) as Hfound.
  fold n in Hr, Hfalse, Htrue, Hfound.
  change Drone.MAX_CONNECT_ATTEMPTS with 10%nat in *.
  fold wifi in Hfound. clearbody n.
  split; [|split].
  - split; [lia|]. split; [intros k Hk; apply Hfalse; lia|].
    split; [exact Htrue|].
    intros fuel Hfuel.
    destruct (wifi_loop_spec check fuel 0)
      as (Hr' & Hfalse' & Htrue');
      try (unfold Drone.MAX_CONNECT_ATTEMPTS; lia).
    change Drone.MAX_CONNECT_ATTEMPTS with 10%nat in *.
    set (n' := Drone.wifi_loop check fuel 0) in *. clearbody n'.
    destruct (Nat.lt_trichotomy n' n) as [Hlt|[E|Hgt]]; [|exact E|].
    + exfalso. assert (check n' = true) by (apply Htrue'; lia).
      assert (check n' = false) by (apply Hfalse; lia). congruence.
    + exfalso. assert (check n = true) by (apply Htrue; lia).
      assert (check n = false) by (apply Hfalse'; lia). congruence.
  - destruct (Nat.leb_spec 10 n) as [Hge|Hlt]; cbn [snd].
    + split; [discriminate|]. intros [Hw _]. apply Hfound in Hw. lia.
    + apply Hfound in Hlt.
      destruct link; cbn [snd]; split; try discriminate; auto;
        intros [_ H]; discriminate H.
  - destruct (Nat.leb_spec 10 n) as [Hge|Hlt]; cbn [fst].
    + split; [auto|]. intros [H|[Hw _]]; [exact H|].
      apply Hfound in Hw. lia.
    + apply Hfound in Hlt.
      destruct link; simpl; split; auto;
        try (intros [H|[_ [H|H]]]; [exact H | discriminate H
                                              | discriminate H]).
Qed.

(** *** The cached height *)

Lemma latest_reading_app (readings : list (option Z)) (r : option Z)
      (cached : Z) :
  Drone.latest_reading (readings ++ [r]) cached
  = match r with
    | Some h => h
    | None => Drone.latest_reading readings cached
    end.
Proof.
  revert cached. induction readings as [|[h|] readings IH]; intros cached;
    simpl; auto.
Qed.

Lemma poll_heights (readings : list (option Z)) (d : Drone.DroneController) :
  Drone.not_ready d = false ->
  Drone.not_ready
    (Drone.run_ops (map Drone.GetHeight readings) d) = false /\
  Drone.current_height (Drone.run_ops (map Drone.GetHeight readings) d)
  = Drone.latest_reading readings (Drone.current_height d).
Proof.
  revert d. induction readings as [|r readings IH]; intros d Hd;
    [simpl; auto|].
  change (Drone.run_ops (map Drone.GetHeight (r :: readings)) d)
    with (Drone.run_ops (map Drone.GetHeight readings)
            (fst (Drone.get_height r d))).
  unfold Drone.get_height. rewrite Hd.
  destruct r as [h|]; cbn [fst Drone.latest_reading].
  - destruct (IH (Drone.set_current_height h d)) as [Hn Hh]; [exact Hd|].
    auto.
  - now apply IH.
Qed.

(** X15. [get_height] never raises: it returns 0 and keeps the cache when
    the wrapper is not connected, and on a connected wrapper any sequence
    of calls returns, at each call, the latest reading that did not raise,
    or the height cached before the sequence when every reading raised. *)
Theorem height_cache_latest :
  forall (readings : list (option Z)) (r : option Z)
         (d : Drone.DroneController),
    (Drone.not_ready d = true -> Drone.get_height r d = (d, 0%Z)) /\
    (Drone.not_ready d = false ->
     snd (Drone.get_height r
            (Drone.run_ops (map Drone.GetHeight readings) d))
     = Drone.latest_reading (readings ++ [r]) (Drone.current_height d)).
Proof.
  intros readings r d. split.
  - intros Hd. unfold Drone.get_height. now rewrite Hd.
  - intros Hd. destruct (poll_heights readings d Hd) as [Hn Hh].
    unfold Drone.get_height. rewrite Hn, latest_reading_app.
    destruct r; simpl; auto.
Qed.

(** * Properties of the control loop *)

Lemma takeoff_phase (now : Q) (ms : list MarkerInfo) (h th : Q)
      (s : NavigationState) :
  phase s = TAKEOFF ->
  phase (fst (update_state now ms h th s))
  = if Qle_bool (Qabs (h - th)) HEIGHT_TOLERANCE_CM
    then ALIGNING else TAKEOFF.
Proof.
  intros Hp. rewrite update_state_unfold.
  destruct (update_max_id_target now ms s) as (_ & _ & Hph & _).
  unfold handle_phase.
  set (b := Qle_bool (Qabs (h - th)) HEIGHT_TOLERANCE_CM).
  destruct (find_target (target_id s) ms); simpl; rewrite Hph, Hp;
    destruct b; simpl; congruence.
Qed.

Section ControlLoop.

Variable arctan_deg : Q -> Q.
Variable PID : Type.
Variable pid_call : PID -> npfloat -> PID * option npfloat.

Local Abbreviation controller := (NavigationController PID).
Local Abbreviation control := (calculate_control arctan_deg PID pid_call).
Local Abbreviation navigate' := (navigate arctan_deg PID pid_call).
Local Abbreviation loop_body' := (loop_body arctan_deg PID pid_call).

(** What every call of [calculate_control] returns, in one place. *)
Lemma calculate_control_summary (target_marker : option MarkerInfo)
      (h th : Q) (c : controller) :
  let r := control target_marker h th c in
  state PID (fst r) = state PID c /\
  (in_range (left_right (snd r)) /\ in_range (forward_backward (snd r)) /\
   in_range (yaw (snd r))) /\
  (up_down (snd r) = 0%Z \/
   up_down (snd r) = up_down (height_control h th zero_values)) /\
  (target_marker = None ->
   left_right (snd r) = 0%Z /\ forward_backward (snd r) = 0%Z /\
   yaw (snd r) = 0%Z) /\
  (phase (state PID c) <> ALIGNING -> yaw (snd r) = 0%Z).
Proof.
  destruct (height_control_fields h th) as (Hl & Hf & Hy & Hu).
  unfold calculate_control, marker_control.
  cbn [fst snd state pid_x pid_y pid_r control_values
       set_pid_x set_pid_y set_pid_r set_control_values].
  set (hc := height_control h th zero_values) in *. clearbody hc.
  assert (Hc : clamp (up_down hc) = up_down hc).
  { apply clamp_id. unfold in_range. lia. }
  assert (H0 : in_range 0) by (unfold in_range; lia).
  destruct target_marker as [m|].
  - destruct (phase (state PID c));
      repeat match goal with
             | |- context [int_pid ?a ?b ?x ?y] =>
                 destruct (int_pid a b x y) as [? [?|]];
                 cbn [fst snd state pid_x pid_y pid_r control_values
                      set_pid_x set_pid_y set_pid_r set_control_values]
             end;
      cbn [fst snd state clamp_values left_right forward_backward up_down
           yaw set_yaw set_left_right set_forward_backward zero_values
           set_control_values];
      rewrite ?Hl, ?Hf, ?Hy, ?Hc;
      (split; [reflexivity|]);
      (split; [split; [|split];
                 first [apply clamp_in_range | exact H0]|]);
      (split; [auto|]);
      (split; [discriminate|]);
      intros; try reflexivity; congruence.
  - cbn [fst snd state clamp_values left_right forward_backward up_down
         yaw set_control_values].
    rewrite Hl, Hf, Hy, Hc.
    split; [reflexivity|].
    split; [split; [|split]; apply clamp_in_range|].
    split; [auto|]. split; auto.
Qed.

Lemma navigate_state (now : Q) (ms : list MarkerInfo) (h th : Q)
      (c : controller) :
  state PID (fst (navigate' now ms h th c))
  = fst (update_state now ms h th (state PID c)).
Proof.
  unfold navigate.
  destruct (calculate_control_summary
              (find_target
                 (target_id
                    (state PID
                       (set_state PID
                          (fst (update_state now ms h th (state PID c))) c)))
                 ms) h th
              (set_state PID (fst (update_state now ms h th (state PID c))) c))
    as (-> & _).
  reflexivity.
Qed.

(** X16. In the control loop the state is updated before the command is
    computed, with the same frame.  So a non-zero yaw command means that
    the phase after the update is ALIGNING and the target is in the frame;
    if the phase was ALIGNING before the call as well, the target is
    farther than the threshold (a target within the threshold moves the
    phase to APPROACHING first, and the command of that call is a position
    command). *)
Theorem loop_yaw_only_while_aligning :
  forall (now : Q) (markers : list MarkerInfo) (h th : Q) (c : controller),
    yaw (snd (navigate' now markers h th c)) <> 0%Z ->
    phase (state PID (fst (navigate' now markers h th c))) = ALIGNING /\
    (phase (state PID c) = TAKEOFF \/ phase (state PID c) = ALIGNING) /\
    exists m, find_target (target_id (state PID c)) markers = Some m /\
              (phase (state PID c) = ALIGNING -> THRESHOLD < distance m).
Proof.
  intros now markers h th c Hyaw.
  pose proof (navigate_state now markers h th c) as Hst.
  unfold navigate in Hyaw, Hst |- *.
  set (s := state PID c) in *.
  set (s' := fst (update_state now markers h th s)) in *.
  set (c1 := set_state PID s' c) in *.
  change (state PID c1) with s' in *.
  destruct (calculate_control_summary
              (find_target (target_id s') markers) h th c1)
    as (_ & _ & _ & Hnone & Hmode).
  change (state PID c1) with s' in Hmode.
  assert (Hp' : phase s' = ALIGNING).
  { destruct (phase s') eqn:E; try reflexivity;
      exfalso; apply Hyaw, Hmode; congruence. }
  destruct (find_target (target_id s') markers) as [m|] eqn:Hfind;
    [|exfalso; apply Hyaw, Hnone; reflexivity].
  rewrite Hst. split; [exact Hp'|].
  assert (Ht : target_id s' = target_id s).
  { destruct (step_counters_cases s (mkTick now markers h th))
      as [[Ht _]|(_ & Hpa & _)]; [exact Ht|].
    change (step s (mkTick now markers h th)) with s' in Hpa. congruence. }
  rewrite Ht in Hfind.
  assert (Hprev : phase s = TAKEOFF \/ phase s = ALIGNING).
  { destruct (step_phase_value s (mkTick now markers h th)) as [E|E];
      change (step s (mkTick now markers h th)) with s' in E;
      rewrite Hp' in E; destruct (phase s); simpl in E; auto; lia. }
  split; [exact Hprev|].
  exists m. split; [exact Hfind|].
  intros Hp. pose proof (aligning_phase now markers h th s Hp) as E.
  fold s' in E. rewrite Hfind, Hp' in E.
  destruct (Qle_bool (distance m) THRESHOLD) eqn:Hd; [discriminate|].
  now apply Qle_bool_false_iff.
Qed.

(** X17. The marker handed to [calculate_control] is looked up with the
    target identity after the update.  When the frame holds no marker with
    that identity, as in the call that reaches a marker while the next one
    is not in view yet, the command has no horizontal and no yaw
    component. *)
Theorem loop_target_handover :
  forall (now : Q) (markers : list MarkerInfo) (h th : Q) (c : controller),
    let r := navigate' now markers h th c in
    let s' := fst (update_state now markers h th (state PID c)) in
    state PID (fst r) = s' /\
    ((forall m, In m markers -> id m <> target_id s') ->
     left_right (snd r) = 0%Z /\ forward_backward (snd r) = 0%Z /\
     yaw (snd r) = 0%Z).
Proof.
  intros now markers h th c r s'.
  split; [apply navigate_state|].
  intros Hno. subst r. unfold navigate.
  set (c1 := set_state PID s' c).
  change (state PID c1) with s'.
  apply (proj2 (find_target_none _ _)) in Hno.
  destruct (calculate_control_summary
              (find_target (target_id s') markers) h th c1)
    as (_ & _ & _ & Hnone & _).
  apply Hnone. exact Hno.
Qed.

(** X18. Outside a real flight the loop feeds the target height as the
    current height: the vertical command is always 0 and a controller in
    TAKEOFF leaves it in its first iteration. *)
Theorem simulated_flight :
  forall (now : Q) (markers : list MarkerInfo) (reading th : Z)
         (c : controller),
    let r := loop_body' false now markers reading th c in
    up_down (snd r) = 0%Z /\
    (phase (state PID c) = TAKEOFF ->
     phase (state PID (fst r)) = ALIGNING).
Proof.
  intros now markers reading th c r. subst r. unfold loop_body.
  assert (Hband : Qle_bool (Qabs (inject_Z th - inject_Z th))
                           HEIGHT_TOLERANCE_CM = true).
  { apply Qle_bool_iff. apply Qabs_Qle_condition.
    unfold HEIGHT_TOLERANCE_CM. split; lra. }
  split.
  - unfold navigate.
    match goal with
    | |- context [calculate_control _ _ _ ?tm ?a ?b ?x] =>
        destruct (calculate_control_summary tm a b x)
          as (_ & _ & [E|E] & _)
    end; [exact E|].
    rewrite E.
    destruct (height_control_cases (inject_Z th) (inject_Z th))
      as (_ & _ & Hmid).
    rewrite Hmid; [reflexivity|]. unfold HEIGHT_TOLERANCE_CM. split; lra.
  - intros Hp. rewrite navigate_state.
    rewrite (takeoff_phase _ _ _ _ _ Hp), Hband. reflexivity.
Qed.

(** X19. Whatever the loop computes, what a connected wrapper hands to the
    drone library lies within [-40, 40] on every axis, and the vertical
    value is -8, 0 or 8. *)
Theorem loop_command_bounded :
  forall (real_flight : bool) (now : Q) (markers : list MarkerInfo)
         (reading th : Z) (c : controller) (ok : bool)
         (d : Drone.DroneController),
    Drone.not_ready d = false ->
    let cv := snd (loop_body' real_flight now markers reading th c) in
    exists lr fb ud yw,
      Drone.send_rc_control ok (left_right cv) (forward_backward cv)
                            (up_down cv) (yaw cv) d
      = (Some (lr, fb, ud, yw), ok) /\
      (-40 <= lr <= 40)%Z /\ (-40 <= fb <= 40)%Z /\ (-40 <= yw <= 40)%Z /\
      (ud = (-8)%Z \/ ud = 0%Z \/ ud = 8%Z).
Proof.
  intros real_flight now markers reading th c ok d Hd cv.
  subst cv. unfold loop_body, navigate.
  match goal with
  | |- context [calculate_control _ _ _ ?tm ?a ?b ?x] =>
      destruct (calculate_control_summary tm a b x)
        as (_ & (Hlr & Hfb & Hyw) & Hud & _);
      destruct (height_control_fields a b) as (_ & _ & _ & Hhc);
      set (cv := snd (calculate_control arctan_deg PID pid_call tm a b x))
        in *
  end.
  clearbody cv.
  assert (Hud' : up_down cv = (-20)%Z \/ up_down cv = 0%Z \/
                 up_down cv = 20%Z).
  { destruct Hud as [E|E]; [auto|]. rewrite E. exact Hhc. }
  assert (Hudr : in_range (up_down cv)) by (unfold in_range; lia).
  unfold Drone.send_rc_control. rewrite Hd.
  rewrite (scale_in_range _ Hlr), (scale_in_range _ Hfb),
    (scale_in_range _ Hudr), (scale_in_range _ Hyw).
  do 4 eexists. split; [reflexivity|].
  pose proof (proj1 (quot_scaled_bounds _ Hlr)).
  pose proof (proj1 (quot_scaled_bounds _ Hfb)).
  pose proof (proj1 (quot_scaled_bounds _ Hyw)).
  repeat split; try lia.
  destruct Hud' as [E|[E|E]]; rewrite E; simpl; auto.
Qed.

End ControlLoop.

Lemma loop_yaw_only_while_aligning_witness :
  let p_only := fun (p : unit) (v : npfloat) =>
                  (p, Some match v with
                           | Finite q => Finite (- (4 # 5) * q)
                           | other => np_neg other
                           end) in
  let c := mkController unit tt tt tt (mkState ALIGNING 1 0 1 0 0)
                        zero_values in
  phase (state unit
           (fst (navigate (fun x => x) unit p_only 5
                          [mkMarker 1 230 192 70] 150 150 c)))
  = ALIGNING.
Proof.
  refine (proj1 (loop_yaw_only_while_aligning
                   (fun x => x) unit _ 5 [mkMarker 1 230 192 70] 150 150
                   (mkController unit tt tt tt (mkState ALIGNING 1 0 1 0 0)
                                 zero_values) _)).
  vm_compute. discriminate.
Defined.

Lemma loop_target_handover_witness :
  let c := mkController unit tt tt tt (mkState APPROACHING 1 0 1 0 0)
                        zero_values in
  let r := navigate (fun x => x) unit (fun p v => (p, Some v)) 5
                    [mkMarker 1 163 196 5] 150 150 c in
  left_right (snd r) = 0%Z /\ forward_backward (snd r) = 0%Z /\
  yaw (snd r) = 0%Z.
Proof.
  refine (proj2 (loop_target_handover
                   (fun x => x) unit (fun p v => (p, Some v)) 5
                   [mkMarker 1 163 196 5] 150 150
                   (mkController unit tt tt tt
                      (mkState APPROACHING 1 0 1 0 0) zero_values)) _).
  intros m [<-|[]]. vm_compute. discriminate.
Defined.

Lemma loop_command_bounded_witness :
  let c := mkController unit tt tt tt (mkState APPROACHING 1 0 1 0 0)
                        zero_values in
  let cv := snd (loop_body (fun x => x) unit
                           (fun p v => (p, Some (Finite 1000)))
                           true 5 [mkMarker 1 60 100 136] 100 150 c) in
  exists lr fb ud yw,
    Drone.send_rc_control true (left_right cv) (forward_backward cv)
                          (up_down cv) (yaw cv)
                          (Drone.mkDrone true true true 100)
    = (Some (lr, fb, ud, yw), true) /\
    (-40 <= lr <= 40)%Z /\ (-40 <= fb <= 40)%Z /\ (-40 <= yw <= 40)%Z /\
    (ud = (-8)%Z \/ ud = 0%Z \/ ud = 8%Z).
Proof.
  exact (loop_command_bounded
           (fun x => x) unit (fun p v => (p, Some (Finite 1000)))
           true 5 [mkMarker 1 60 100 136] 100 150
           (mkController unit tt tt tt (mkState APPROACHING 1 0 1 0 0)
                         zero_values)
           true (Drone.mkDrone true true true 100) eq_refl).
Defined.
